(** * ProxyServerHTTPS: proxy pool lifecycle and request forwarding

    A shallow embedding of [app.py] (pool refresh, proxy choice, the
    three-attempt forwarding loop) and of the URL normalisation and
    pool initialisation of [working_https_proxy.py].

    Python [str] values are [string]s whose characters are code points
    below 256.  The request path handed to the handlers is decoded by
    [http.server] as ISO-8859-1, so this is exact for URLs.

    Everything the program cannot decide by itself (what the network
    answers, what the random generator draws, what another thread has
    stored in [PROXY_POOL]) is read from an oracle record, the world;
    theorems quantify over every world. *)

From Stdlib Require Import List String Ascii Bool Arith ZArith NArith Lia.
From Stdlib Require Import Relations.Relation_Operators.
From Stdlib Require Import Numbers.DecimalString.
Import ListNotations.
Open Scope string_scope.

Set Implicit Arguments.

(* ------------------------------------------------------------------ *)
(** ** Python string primitives *)
(* ------------------------------------------------------------------ *)

Module Py.

(** [str.isspace] on one character, for code points below 256:
    U+0009..U+000D, U+001C..U+0020, U+0085 and U+00A0. *)
Definition isspace (c : ascii) : bool :=
  let n := N_of_ascii c in
  (((9 <=? n) && (n <=? 13)) || ((28 <=? n) && (n <=? 32))
   || (n =? 133) || (n =? 160))%N.

(** Truth value of a [str]: the empty string is false. *)
Definition truthy (s : string) : bool :=
  match s with EmptyString => false | String _ _ => true end.

Fixpoint lstrip (s : string) : string :=
  match s with
  | EmptyString => EmptyString
  | String c r => if isspace c then lstrip r else s
  end.

Fixpoint rstrip (s : string) : string :=
  match s with
  | EmptyString => EmptyString
  | String c r =>
      let r' := rstrip r in
      if isspace c && negb (truthy r') then EmptyString else String c r'
  end.

(** [s.strip()] *)
Definition strip (s : string) : string := rstrip (lstrip s).

(** [s.split(sep)] for a one-character separator: one more piece than
    there are separators, empty pieces kept. *)
Fixpoint split (sep : ascii) (s : string) : list string :=
  match s with
  | EmptyString => [EmptyString]
  | String c r =>
      if Ascii.eqb c sep then EmptyString :: split sep r
      else match split sep r with
           | piece :: pieces => String c piece :: pieces
           | [] => [String c EmptyString]
           end
  end.

(** [pat in s] (substring test). *)
Fixpoint contains (pat s : string) : bool :=
  String.prefix pat s
  || match s with
     | EmptyString => false
     | String _ r => contains pat r
     end.

(** [s.startswith(pat)] *)
Definition startswith (s pat : string) : bool := String.prefix pat s.

(** [str.lower] on one character below 256: A..Z and the Latin-1
    capitals U+00C0..U+00DE (the multiplication sign U+00D7 apart)
    move up by 32. *)
Definition lower_char (c : ascii) : ascii :=
  let n := N_of_ascii c in
  if (((65 <=? n) && (n <=? 90))
      || ((192 <=? n) && (n <=? 222) && negb (n =? 215)))%N
  then ascii_of_N (n + 32) else c.

Fixpoint lower (s : string) : string :=
  match s with
  | EmptyString => EmptyString
  | String c r => String (lower_char c) (lower r)
  end.

(** [s[1:]] *)
Definition drop1 (s : string) : string :=
  match s with EmptyString => EmptyString | String _ r => r end.

(** [str(n)] for an integer. *)
Definition str_int (n : Z) : string := NilZero.string_of_int (Z.to_int n).

Definition newline : ascii := ascii_of_N 10.

End Py.

(* ------------------------------------------------------------------ *)
(** ** Exceptions, responses and the outbound call *)
(* ------------------------------------------------------------------ *)

(** The exception classes the handlers tell apart, in the order of the
    [except] clauses: [HTTPError] (a subclass of [URLError]), [URLError],
    [TimeoutError], and every other [Exception].  Of the others one
    class is named: [ConnectionResetError], the [OSError] of a
    connection the peer closed or reset while the reply was awaited or
    read ([http.client.RemoteDisconnected] is one).  urllib wraps in
    [URLError] only what sending the request raises, so this one
    reaches the handlers as it is and is caught by [except Exception]. *)
Inductive exn : Type :=
| HTTPError (code : Z) (msg : string)
| URLError (reason : string)
| TimeoutError (text : string)
| ConnectionResetError (text : string)
| OtherException (text : string).

(** [str(e)] *)
Definition str_exn (e : exn) : string :=
  match e with
  | HTTPError code msg => "HTTP Error " ++ Py.str_int code ++ ": " ++ msg
  | URLError reason => "<urlopen error " ++ reason ++ ">"
  | TimeoutError text => text
  | ConnectionResetError text => text
  | OtherException text => text
  end.

Inductive result (A : Type) : Type :=
| Ok (a : A)
| Raise (e : exn).
Arguments Ok {A} a.
Arguments Raise {A} e.

Record response : Type := mkResponse {
  status : Z;
  reason : string;
  getheaders : list (string * string);
  body : string
}.

(** What the outbound connection produced: the final HTTP reply of the
    upstream (after any redirect urllib followed), or a failure below
    HTTP. *)
Inductive wire : Type :=
| Reply (r : response)
| Failure (e : exn).

(** [opener.open(request)] / [urllib.request.urlopen(request)]: urllib's
    [HTTPErrorProcessor] hands back only replies with
    [200 <= status < 300]; any other status is raised as [HTTPError]. *)
Definition urlopen (x : wire) : result response :=
  match x with
  | Reply r =>
      if ((200 <=? status r) && (status r <? 300))%Z then Ok r
      else Raise (HTTPError (status r) (reason r))
  | Failure e => Raise e
  end.

(* ------------------------------------------------------------------ *)
(** ** A state monad with exceptions over a read-only world *)
(* ------------------------------------------------------------------ *)

Section Monad.
Variables W S : Type.

Definition M (A : Type) : Type := W -> S -> result A * S.

Definition ret {A} (a : A) : M A := fun _ s => (Ok a, s).

Definition bind {A B} (m : M A) (k : A -> M B) : M B :=
  fun w s =>
    match m w s with
    | (Ok a, s') => k a w s'
    | (Raise e, s') => (Raise e, s')
    end.

(** [try: m  except Exception as e: h e] *)
Definition try_except {A} (m : M A) (h : exn -> M A) : M A :=
  fun w s =>
    match m w s with
    | (Ok a, s') => (Ok a, s')
    | (Raise e, s') => h e w s'
    end.
End Monad.

Arguments ret {W S A} a.
Arguments bind {W S A B} m k.
Arguments try_except {W S A} m h.

Declare Scope py_scope.
Delimit Scope py_scope with py.
Notation "x <- m ;; k" := (bind m (fun x => k))
  (at level 61, m at next level, right associativity) : py_scope.
Notation "m ;; k" := (bind m (fun _ => k))
  (at level 61, right associativity) : py_scope.
Open Scope py_scope.

Inductive level : Type := INFO | WARNING | ERROR.

(** Text of the log records of [app.py], one constructor per
    [logging] call site. *)
Inductive logmsg : Type :=
| FetchingProxies
| Fetched (n : nat)
| FetchFailed (e : exn)
| TestingUpTo (max_to_test : nat)
| ProxyWorking (proxy : string)
| FoundWorking (n tested : nat)
| PoolUpdated (n : nat)
| UsingUntested
| KeepingExisting
| NoProxiesAvailable
| NoProxyAvailable
| ForwardedDirectly (url : string)
| AttemptUsing (number : nat) (proxy url : string)
| ForwardedVia (url proxy : string)
| HTTPErrorWith (who : string) (code : Z) (url : string)
| URLErrorWith (who : string) (text : string) (url : string)
| TimeoutWith (who : string) (url : string)
| ErrorWith (who : string) (text : string) (url : string).

(** Everything a run does that is visible from outside. *)
Inductive event : Type :=
| Log (lvl : level) (m : logmsg)
| Request (via : option string) (url : string)
          (headers : list (string * string))
| SendResponse (code : Z)
| SendHeader (key value : string)
| EndHeaders
| WfileWrite (data : string)
| SendError (code : Z) (message : string)
| Sleep (milliseconds : nat).

(* ------------------------------------------------------------------ *)
(** ** The refresher: ProxySource, ProxyValidator, pool update *)
(* ------------------------------------------------------------------ *)

(** What one refresh cycle meets on the network. *)
Record refresh_world : Type := mkRefreshWorld {
  (** reply to the request sent to [PROXY_API_URL] *)
  listing : wire;
  (** outcome of [response.read().decode('utf-8')] on that reply *)
  listing_text : result string;
  (** reply to the k-th validation probe of the cycle *)
  probe : nat -> wire
}.

Record rstate : Type := mkRState {
  PROXY_POOL : list string;
  probes : nat;
  rtrace : list event
}.

Definition R := M refresh_world rstate.

(** The state at process start: [PROXY_POOL: List[str] = []]. *)
Definition r0 : rstate := mkRState [] 0 [].

Definition remit (e : event) : R unit :=
  fun _ s => (Ok tt, mkRState (PROXY_POOL s) (probes s) (rtrace s ++ [e])%list).

Definition set_PROXY_POOL (pool : list string) : R unit :=
  fun _ s => (Ok tt, mkRState pool (probes s) (rtrace s)).

(** The one header both [fetch_proxies_from_api] and [validate_proxy]
    send. *)
Definition browser_headers : list (string * string) :=
  [("User-Agent",
    "Mozilla/5.0 (Windows NT 10.0; Win64; x64) AppleWebKit/537.36 (KHTML, like Gecko) Chrome/91.0.4472.124 Safari/537.36")].

(** The probe request of [validate_proxy], routed through [proxy]. *)
Definition probe_open (proxy test_url : string) : R response :=
  fun w s =>
    (urlopen (probe w (probes s)),
     mkRState (PROXY_POOL s) (S (probes s))
              (rtrace s ++ [Request (Some proxy) test_url browser_headers])%list).

Definition PROXY_API_URL : string :=
  "https://api.proxyscrape.com/v4/free-proxy-list/get?request=displayproxies&protocol=http&timeout=10000&country=all&ssl=all&anonymity=all&skip=0&limit=500".

(** The request to the listing service. *)
Definition listing_open (url : string) (headers : list (string * string))
  : R response :=
  fun w s =>
    (urlopen (listing w),
     mkRState (PROXY_POOL s) (probes s)
              (rtrace s ++ [Request None url headers])%list).

Definition read_decode : R string := fun w s => (listing_text w, s).

(** The [for line in content.split('\n')] loop of
    [fetch_proxies_from_api], appending to [proxies]. *)
Fixpoint parse_lines (lines : list string) (proxies : list string)
  : list string :=
  match lines with
  | [] => proxies
  | line :: rest =>
      let line := Py.strip line in
      if Py.truthy line && Py.contains ":" line
      then parse_lines rest (proxies ++ [("http://" ++ line)%string])%list
      else parse_lines rest proxies
  end.

Definition fetch_proxies_from_api : R (list string) :=
  try_except
    (remit (Log INFO FetchingProxies) ;;
     _ <- listing_open PROXY_API_URL browser_headers ;;
     raw <- read_decode ;;
     let content := Py.strip raw in
     let proxies := parse_lines (Py.split Py.newline content) [] in
     remit (Log INFO (Fetched (List.length proxies))) ;;
     ret proxies)
    (fun e =>
       remit (Log ERROR (FetchFailed e)) ;;
       ret []).

Definition default_test_url : string := "http://httpbin.org/ip".

Definition validate_proxy (proxy test_url : string) : R bool :=
  try_except
    (resp <- probe_open proxy test_url ;;
     if (status resp =? 200)%Z then ret true else ret false)
    (fun _ => ret false).

(** The loop of [get_working_proxies]; [tested] and [working_proxies]
    are its two local variables. *)
Fixpoint test_loop (proxy_list : list string) (max_to_test tested : nat)
         (working_proxies : list string) : R (list string * nat) :=
  match proxy_list with
  | [] => ret (working_proxies, tested)
  | proxy :: rest =>
      if (max_to_test <=? tested)%nat then ret (working_proxies, tested)
      else
        good <- validate_proxy proxy default_test_url ;;
        working_proxies' <-
          (if good : bool
           then remit (Log INFO (ProxyWorking proxy)) ;;
                ret (working_proxies ++ [proxy])%list
           else ret working_proxies) ;;
        remit (Sleep 100) ;;
        test_loop rest max_to_test (S tested) working_proxies'
  end.

Definition get_working_proxies (proxy_list : list string)
           (max_to_test : nat) : R (list string) :=
  remit (Log INFO (TestingUpTo max_to_test)) ;;
  r <- test_loop proxy_list max_to_test 0 [] ;;
  remit (Log INFO (FoundWorking (List.length (fst r)) (snd r))) ;;
  ret (fst r).

(** Truth value of a list: the empty list is false. *)
Definition nonempty {A} (l : list A) : bool :=
  match l with [] => false | _ :: _ => true end.

Definition update_proxy_pool : R unit :=
  new_proxies <- fetch_proxies_from_api ;;
  if nonempty new_proxies then
    working_proxies <- get_working_proxies new_proxies 100 ;;
    if nonempty working_proxies then
      set_PROXY_POOL working_proxies ;;
      remit (Log INFO (PoolUpdated (List.length working_proxies)))
    else
      set_PROXY_POOL (firstn 50 new_proxies) ;;
      remit (Log WARNING UsingUntested)
  else
    remit (Log WARNING KeepingExisting).

(** One refresh cycle turns pool [p] into pool [q]. *)
Definition refresh_step (p q : list string) : Prop :=
  exists (w : refresh_world) (s s' : rstate),
    PROXY_POOL s = p /\ update_proxy_pool w s = (Ok tt, s') /\ PROXY_POOL s' = q.

(** [q] is what [PROXY_POOL] may hold some refresh cycles after it
    held [p]. *)
Definition refreshes : list string -> list string -> Prop :=
  clos_refl_trans_n1 (list string) refresh_step.

(** The pools the process can ever hold: [PROXY_POOL = []] at start. *)
Definition reachable (pool : list string) : Prop := refreshes [] pool.

(** The size of a pool, [len(PROXY_POOL)]. *)
Definition size (pool : list string) : nat := List.length pool.

(* ------------------------------------------------------------------ *)
(** ** The request handler: proxy choice and the forwarding loop *)
(* ------------------------------------------------------------------ *)

(** What one request meets.  [PROXY_POOL] is a global that the refresh
    thread reassigns while a request is served, so each read of it by
    the handler is answered by the world. *)
Record handler_world : Type := mkHandlerWorld {
  (** value of [PROXY_POOL] at the handler's k-th read of it *)
  pool_read : nat -> list string;
  (** the k-th number drawn by [random] *)
  draw : nat -> nat;
  (** what the k-th outbound call of the request produced *)
  upstream : nat -> wire;
  (** the exception [response.read()] raises on the reply of the k-th
      outbound call, when reading its body fails *)
  read_fault : nat -> option exn
}.

Record hstate : Type := mkHState {
  reads : nat;
  draws : nat;
  calls : nat;
  (** the local variable [proxy] of [forward_request]: [None] while the
      name is unbound, [Some v] once it was assigned [v] *)
  local_proxy : option (option string);
  trace : list event
}.

Definition H := M handler_world hstate.

Definition h0 : hstate := mkHState 0 0 0 None [].

Definition emit (e : event) : H unit :=
  fun _ s =>
    (Ok tt, mkHState (reads s) (draws s) (calls s) (local_proxy s)
                     (trace s ++ [e])%list).

Definition read_PROXY_POOL : H (list string) :=
  fun w s =>
    (Ok (pool_read w (reads s)),
     mkHState (S (reads s)) (draws s) (calls s) (local_proxy s) (trace s)).

(** [random.choice(seq)]: [seq[randbelow(len(seq))]], [IndexError] on an
    empty sequence. *)
Definition random_choice (seq : list string) : H string :=
  fun w s =>
    match seq with
    | [] => (Raise (OtherException "Cannot choose from an empty sequence"), s)
    | _ :: _ =>
        (Ok (nth (draw w (draws s) mod List.length seq) seq EmptyString),
         mkHState (reads s) (S (draws s)) (calls s) (local_proxy s) (trace s))
    end.

(** The outbound request, through [via] or directly. *)
Definition open_via (via : option string) (url : string)
           (headers : list (string * string)) : H response :=
  fun w s =>
    (urlopen (upstream w (calls s)),
     mkHState (reads s) (draws s) (S (calls s)) (local_proxy s)
              (trace s ++ [Request via url headers])%list).

Definition assign_proxy (v : option string) : H unit :=
  fun _ s =>
    (Ok tt, mkHState (reads s) (draws s) (calls s) (Some v) (trace s)).

(** [proxy if 'proxy' in locals() else 'direct'], formatted. *)
Definition who : H string :=
  fun _ s =>
    (Ok match local_proxy s with
        | None => "direct"
        | Some None => "None"
        | Some (Some p) => p
        end, s).

Definition get_random_proxy : H (option string) :=
  pool <- read_PROXY_POOL ;;
  if negb (nonempty pool) then ret None
  else
    pool' <- read_PROXY_POOL ;;
    p <- random_choice pool' ;;
    ret (Some p).

Fixpoint send_headers (hs : list (string * string)) : H unit :=
  match hs with
  | [] => ret tt
  | (key, value) :: rest => emit (SendHeader key value) ;; send_headers rest
  end.

(** [response.read()] on the reply of the latest outbound call: the
    body, or the exception the read raises. *)
Definition read_body (r : response) : H string :=
  fun w s =>
    match read_fault w (pred (calls s)) with
    | Some e => (Raise e, s)
    | None => (Ok (body r), s)
    end.

(** The body of each [with ... as response:] block.  The body is read
    after the status line and the headers went out, so a read that
    raises leaves the head with the client.  The writes to the client
    are taken to succeed: the client stays connected while it is
    served. *)
Definition relay (r : response) : H unit :=
  emit (SendResponse (status r)) ;;
  send_headers (getheaders r) ;;
  emit EndHeaders ;;
  data <- read_body r ;;
  emit (WfileWrite data).

Definition max_retries : nat := 3.

(** How one pass through the loop body ends: by [return], or by
    falling through to the [time.sleep(1)] and the next attempt. *)
Inductive flow : Type := Returned | Continue.

(** The second direct-connection branch, under [if not proxy:]. *)
Definition second_direct (url : string) (headers : list (string * string))
  : H flow :=
  emit (Log WARNING NoProxyAvailable) ;;
  r <- open_via None url headers ;;
  relay r ;;
  emit (Log INFO (ForwardedDirectly url)) ;;
  ret Returned.

(** The [try:] block of one attempt.  [not proxy] holds for [None] and
    for the empty string. *)
Definition attempt_body (url : string) (headers : list (string * string))
           (attempt : nat) : H flow :=
  pool <- read_PROXY_POOL ;;
  if negb (nonempty pool) then
    emit (Log WARNING NoProxiesAvailable) ;;
    r <- open_via None url headers ;;
    relay r ;;
    emit (Log INFO (ForwardedDirectly url)) ;;
    ret Returned
  else
    proxy <- get_random_proxy ;;
    assign_proxy proxy ;;
    match proxy with
    | None => second_direct url headers
    | Some p =>
        if negb (Py.truthy p) then second_direct url headers
        else
          emit (Log INFO (AttemptUsing (attempt + 1) p url)) ;;
          r <- open_via (Some p) url headers ;;
          relay r ;;
          emit (Log INFO (ForwardedVia url p)) ;;
          ret Returned
    end.

Definition last_attempt (attempt : nat) : bool :=
  (attempt =? max_retries - 1)%nat.

(** The four [except] clauses. *)
Definition on_exception (url : string) (attempt : nat) (e : exn) : H flow :=
  name <- who ;;
  match e with
  | HTTPError code _ =>
      emit (Log ERROR (HTTPErrorWith name code url)) ;;
      (if last_attempt attempt then emit (SendError code (str_exn e))
       else ret tt) ;;
      ret Continue
  | URLError _ =>
      emit (Log ERROR (URLErrorWith name (str_exn e) url)) ;;
      (if last_attempt attempt then emit (SendError 504 (str_exn e))
       else ret tt) ;;
      ret Continue
  | TimeoutError _ =>
      emit (Log ERROR (TimeoutWith name url)) ;;
      (if last_attempt attempt then emit (SendError 504 "Request timed out")
       else ret tt) ;;
      ret Continue
  | ConnectionResetError _ | OtherException _ =>
      emit (Log ERROR (ErrorWith name (str_exn e) url)) ;;
      (if last_attempt attempt then emit (SendError 500 (str_exn e))
       else ret tt) ;;
      ret Continue
  end.

(** [for attempt in range(max_retries): try ... except ...; time.sleep(1)] *)
Fixpoint retry_loop (url : string) (headers : list (string * string))
         (attempts : list nat) : H unit :=
  match attempts with
  | [] => ret tt
  | attempt :: rest =>
      f <- try_except (attempt_body url headers attempt)
                      (on_exception url attempt) ;;
      match f with
      | Returned => ret tt
      | Continue => emit (Sleep 1000) ;; retry_loop url headers rest
      end
  end.

Definition forward_request (url : string) (headers : list (string * string))
  : H unit :=
  retry_loop url headers (seq 0 max_retries).

(** The part of a trace the relay's client sees. *)
Definition to_client (e : event) : bool :=
  match e with
  | SendResponse _ | SendHeader _ _ | EndHeaders | WfileWrite _
  | SendError _ _ => true
  | _ => false
  end.

Definition client_view (t : list event) : list event := filter to_client t.

(** A response copied to the client as it came: status, every header,
    the body. *)
Definition verbatim (r : response) : list event :=
  (SendResponse (status r)
   :: map (fun kv => SendHeader (fst kv) (snd kv)) (getheaders r)
   ++ [EndHeaders; WfileWrite (body r)])%list.

(** The outbound calls of a trace, in order. *)
Definition is_request (e : event) : bool :=
  match e with Request _ _ _ => true | _ => false end.

Definition requests (t : list event) : list event := filter is_request t.

(** The pool history seen by a request is one the refresher can
    produce: it starts from a reachable pool and each later read sees
    the pool some refresh cycles further on. *)
Definition valid_history (w : handler_world) : Prop :=
  reachable (pool_read w 0)
  /\ forall k, refreshes (pool_read w k) (pool_read w (S k)).

(* ------------------------------------------------------------------ *)
(** ** URL normalisation *)
(* ------------------------------------------------------------------ *)

Section ValidateUrl.
(** [urllib.parse.urlparse(url).scheme], or the exception [urlparse]
    raised; the parser belongs to the Python library. *)
Variable urlparse_scheme : string -> result string.

(** [ProxyHandler.validate_url] of [app.py] ([None] after the error
    is logged). *)
Definition validate_url (url : string) : option string :=
  match urlparse_scheme url with
  | Ok scheme =>
      if negb (Py.truthy scheme) then Some ("http://" ++ url)
      else Some url
  | Raise _ => None
  end.
End ValidateUrl.

(** CPython's [urlsplit] as far as [validate_url] depends on it: the
    scheme it finds and the [ValueError] it raises.  Leading control
    characters and spaces are dropped, tabs and line ends removed; the
    text before the first colon is the scheme when it starts with an
    ASCII letter and holds only letters, digits, [+], [-] and [.]; when
    [//] follows, the host part up to the next [/], [?] or [#] must
    hold both brackets or none.  The checks CPython makes on the text
    between the brackets and on a host outside ASCII are left out; the
    definition serves the sample runs, the theorems take the parser as
    a parameter. *)
Module Urlsplit.
Definition is_alpha (c : ascii) : bool :=
  let n := N_of_ascii c in
  (((65 <=? n) && (n <=? 90)) || ((97 <=? n) && (n <=? 122)))%N.

Definition scheme_char (c : ascii) : bool :=
  let n := N_of_ascii c in
  (is_alpha c || ((48 <=? n) && (n <=? 57))
   || (n =? 43) || (n =? 45) || (n =? 46))%N.

(** [url.lstrip(_WHATWG_C0_CONTROL_OR_SPACE)] *)
Fixpoint lstrip_c0 (s : string) : string :=
  match s with
  | EmptyString => EmptyString
  | String c r => if (N_of_ascii c <=? 32)%N then lstrip_c0 r else s
  end.

(** The removal of tab, line feed and carriage return. *)
Fixpoint remove_unsafe (s : string) : string :=
  match s with
  | EmptyString => EmptyString
  | String c r =>
      let n := N_of_ascii c in
      if ((n =? 9) || (n =? 10) || (n =? 13))%N then remove_unsafe r
      else String c (remove_unsafe r)
  end.

(** The text before the first colon, when there is a colon and every
    character before it is a scheme character. *)
Fixpoint before_colon (s : string) : option string :=
  match s with
  | EmptyString => None
  | String c r =>
      if Ascii.eqb c ":" then Some EmptyString
      else if scheme_char c
           then option_map (String c) (before_colon r)
           else None
  end.

(** The text after the first colon. *)
Fixpoint after_colon (s : string) : string :=
  match s with
  | EmptyString => EmptyString
  | String c r => if Ascii.eqb c ":" then r else after_colon r
  end.

(** The scheme, lower-cased, and what follows it. *)
Definition split_scheme (url : string) : string * string :=
  match url with
  | EmptyString => (EmptyString, url)
  | String c _ =>
      if is_alpha c then
        match before_colon url with
        | Some s => (Py.lower s, after_colon url)
        | None => (EmptyString, url)
        end
      else (EmptyString, url)
  end.

(** [_splitnetloc]: the text up to the first of [/], [?] and [#]. *)
Fixpoint netloc (s : string) : string :=
  match s with
  | EmptyString => EmptyString
  | String c r =>
      if Ascii.eqb c "/" || Ascii.eqb c "?" || Ascii.eqb c "#"
      then EmptyString
      else String c (netloc r)
  end.

Definition scheme (url : string) : result string :=
  let url := remove_unsafe (lstrip_c0 url) in
  let (found, rest) := split_scheme url in
  if Py.startswith rest "//" then
    let host := netloc (Py.drop1 (Py.drop1 rest)) in
    if xorb (Py.contains "[" host) (Py.contains "]" host)
    then Raise (OtherException "Invalid IPv6 URL")
    else Ok found
  else Ok found.
End Urlsplit.

(** The site names of the HTTPS heuristic of [working_https_proxy.py]. *)
Definition https_sites : list string :=
  ["google"; "github"; "facebook"; "twitter"].

(** [WorkingHTTPSHandler.normalize_url] *)
Definition normalize_url (path : string) : string :=
  let path := if Py.startswith path "/" then Py.drop1 path else path in
  if negb (Py.startswith path "http://" || Py.startswith path "https://")
  then
    if existsb (fun site => Py.contains site (Py.lower path)) https_sites
    then "https://" ++ path
    else "http://" ++ path
  else path.

(** The host of a URL that has no scheme: what stands before the first
    slash. *)
Fixpoint host_of (url : string) : string :=
  match url with
  | EmptyString => EmptyString
  | String c r => if Ascii.eqb c "/" then EmptyString else String c (host_of r)
  end.

(** The host names one of the heuristic's sites. *)
Definition host_matches (url : string) : bool :=
  existsb (fun site => Py.contains site (Py.lower (host_of url))) https_sites.

(** The URL, host and path together, names one of the sites. *)
Definition url_mentions_site (url : string) : bool :=
  existsb (fun site => Py.contains site (Py.lower url)) https_sites.

Definition lacks_scheme (url : string) : bool :=
  negb (Py.startswith url "http://" || Py.startswith url "https://").

(* ------------------------------------------------------------------ *)
(** ** Pool initialisation of [working_https_proxy.py] *)
(* ------------------------------------------------------------------ *)

Definition api_url : string :=
  "https://api.proxyscrape.com/v4/free-proxy-list/get?request=displayproxies&protocol=http&timeout=10000&country=all&ssl=all&anonymity=all&skip=0&limit=20".

(** [fetch_proxies]: only the first ten lines of the listing are
    parsed; a failure is logged as in [fetch_proxies_from_api]. *)
Definition fetch_proxies : R (list string) :=
  try_except
    (_ <- listing_open api_url [] ;;
     raw <- read_decode ;;
     let content := Py.strip raw in
     ret (parse_lines (firstn 10 (Py.split Py.newline content)) []))
    (fun e =>
       remit (Log ERROR (FetchFailed e)) ;;
       ret []).

(** [initialize_proxies] (its [print] calls left out). *)
Definition initialize_proxies : R unit :=
  proxies <- fetch_proxies ;;
  if nonempty proxies then set_PROXY_POOL proxies else ret tt.

(* ------------------------------------------------------------------ *)
(** ** The entry points: [do_GET] of [app.py], [make_request] and
       [do_GET] of [working_https_proxy.py] *)
(* ------------------------------------------------------------------ *)

(** Log records of the entry points. *)
Inductive note : Type :=
| TryingProxy (proxy : string)
| ProxyOk
| ProxyFailed (text : string)
| TryingDirect
| DirectOk
| DirectFailed (text : string).

Inductive xlog : Type :=
| InvalidURL (url : string) (e : exn)
| ErrorInDoGET (text : string)
| ErrorInDoPOST (text : string)
| Attempts (method url : string) (notes : list note).

(** What an entry point does: the events of the forwarding engine, its
    own log records, and the outbound call of [make_request], which
    carries a method and a body. *)
Inductive xevent : Type :=
| Base (e : event)
| XLog (lvl : level) (m : xlog)
| Call (method : string) (via : option string) (url : string)
       (headers : list (string * string)) (data : option string).

Record gstate : Type := mkGState {
  greads : nat;
  gdraws : nat;
  gcalls : nat;
  gtrace : list xevent
}.

Definition G := M handler_world gstate.

Definition g0 : gstate := mkGState 0 0 0 [].

Definition gemit (e : xevent) : G unit :=
  fun _ g =>
    (Ok tt, mkGState (greads g) (gdraws g) (gcalls g) (gtrace g ++ [e])%list).

(** A method of the handler called from an entry point: it runs on the
    entry point's counters with its own fresh locals, and its events
    join the trace. *)
Definition liftH {A} (m : H A) : G A :=
  fun w g =>
    let (r, s') := m w (mkHState (greads g) (gdraws g) (gcalls g) None []) in
    (r, mkGState (reads s') (draws s') (calls s')
                 (gtrace g ++ map Base (trace s'))%list).

Definition USER_AGENTS : list string :=
  ["Mozilla/5.0 (Windows NT 10.0; Win64; x64) AppleWebKit/537.36 (KHTML, like Gecko) Chrome/91.0.4472.124 Safari/537.36";
   "Mozilla/5.0 (Macintosh; Intel Mac OS X 10_15_7) AppleWebKit/605.1.15 (KHTML, like Gecko) Version/14.1.1 Safari/605.1.15";
   "Mozilla/5.0 (Windows NT 10.0; Win64; x64; rv:89.0) Gecko/20100101 Firefox/89.0"].

(** Seconds. *)
Definition REQUEST_DELAY : nat := 1.

Definition get_random_user_agent : H string := random_choice USER_AGENTS.

(** The header dictionary [do_GET] builds, in insertion order. *)
Definition request_headers (user_agent : string) : list (string * string) :=
  [("User-Agent", user_agent);
   ("Accept",
    "text/html,application/xhtml+xml,application/xml;q=0.9,image/webp,*/*;q=0.8");
   ("Accept-Language", "en-US,en;q=0.5");
   ("Connection", "keep-alive")].

Section DoGET.
Variable urlparse_scheme : string -> result string.

(** [validate_url] with its log record. *)
Definition validate_url_logged (url : string) : G (option string) :=
  match urlparse_scheme url with
  | Raise e => gemit (XLog ERROR (InvalidURL url e)) ;; ret None
  | Ok _ => ret (validate_url urlparse_scheme url)
  end.

(** [ProxyHandler.do_GET] of [app.py]; [not url] holds for [None] and
    for the empty string. *)
Definition do_GET (path : string) : G unit :=
  try_except
    (url <- validate_url_logged (Py.drop1 path) ;;
     match url with
     | None => gemit (Base (SendError 400 "Invalid URL"))
     | Some url =>
         if negb (Py.truthy url)
         then gemit (Base (SendError 400 "Invalid URL"))
         else
           gemit (Base (Sleep (1000 * REQUEST_DELAY))) ;;
           user_agent <- liftH get_random_user_agent ;;
           liftH (forward_request url (request_headers user_agent))
     end)
    (fun e =>
       gemit (XLog ERROR (ErrorInDoGET (str_exn e))) ;;
       gemit (Base (SendError 500 (str_exn e)))).
End DoGET.

Module Working.

Definition USER_AGENTS : list string :=
  ["Mozilla/5.0 (Windows NT 10.0; Win64; x64) AppleWebKit/537.36 (KHTML, like Gecko) Chrome/120.0.0.0 Safari/537.36";
   "Mozilla/5.0 (Macintosh; Intel Mac OS X 10_15_7) AppleWebKit/537.36 (KHTML, like Gecko) Chrome/120.0.0.0 Safari/537.36"].

(** Seconds. *)
Definition REQUEST_DELAY : nat := 1.

(** [WorkingHTTPSHandler.get_proxy] *)
Definition get_proxy : H (option string) :=
  pool <- read_PROXY_POOL ;;
  if nonempty pool then
    pool' <- read_PROXY_POOL ;;
    p <- random_choice pool' ;;
    ret (Some p)
  else ret None.

(** [header in self.headers] and [self.headers[header]]: the inbound
    headers are matched without regard to case, the first match
    counts. *)
Fixpoint inbound_get (inbound : list (string * string)) (name : string)
  : option string :=
  match inbound with
  | [] => None
  | (key, value) :: rest =>
      if String.eqb (Py.lower key) (Py.lower name) then Some value
      else inbound_get rest name
  end.

(** The [for header in ['Content-Type', 'Content-Length']] loop. *)
Fixpoint copy_headers (inbound : list (string * string)) (names : list string)
         (headers : list (string * string)) : list (string * string) :=
  match names with
  | [] => headers
  | header :: rest =>
      match inbound_get inbound header with
      | Some value => copy_headers inbound rest (headers ++ [(header, value)])%list
      | None => copy_headers inbound rest headers
      end
  end.

Definition base_headers (user_agent : string) : list (string * string) :=
  [("User-Agent", user_agent);
   ("Accept", "text/html,application/xhtml+xml,application/xml;q=0.9,*/*;q=0.8");
   ("Accept-Language", "en-US,en;q=0.9");
   ("Accept-Encoding", "identity");
   ("Connection", "close")].

Definition skip_headers : list string :=
  ["connection"; "transfer-encoding"; "content-encoding"].

(** [key.lower() not in skip_headers] *)
Definition forwarded (key : string) : bool :=
  negb (existsb (String.eqb (Py.lower key)) skip_headers).

Fixpoint send_headers (hs : list (string * string)) : G unit :=
  match hs with
  | [] => ret tt
  | (key, value) :: rest =>
      (if forwarded key then gemit (Base (SendHeader key value)) else ret tt) ;;
      send_headers rest
  end.

(** [response.read()] on the reply of the latest outbound call. *)
Definition read_body (r : response) : G string :=
  fun w g =>
    match read_fault w (pred (gcalls g)) with
    | Some e => (Raise e, g)
    | None => (Ok (body r), g)
    end.

(** The body of each [with ... as response:] block of [make_request];
    the body is read after the head went out. *)
Definition relay (r : response) : G unit :=
  gemit (Base (SendResponse (status r))) ;;
  send_headers (getheaders r) ;;
  gemit (Base EndHeaders) ;;
  data <- read_body r ;;
  gemit (Base (WfileWrite data)).

(** The outbound request of [make_request]. *)
Definition open_via (method : string) (via : option string) (url : string)
           (headers : list (string * string)) (data : option string)
  : G response :=
  fun w g =>
    (urlopen (upstream w (gcalls g)),
     mkGState (greads g) (gdraws g) (S (gcalls g))
              (gtrace g ++ [Call method via url headers data])%list).

(** [WorkingHTTPSHandler.make_request]; [inbound] is [self.headers].
    The pair threaded through is ([success], [attempts]). *)
Definition make_request (inbound : list (string * string))
           (url method : string) (data : option string) : G unit :=
  user_agent <- liftH (random_choice USER_AGENTS) ;;
  let headers :=
    copy_headers inbound ["Content-Type"; "Content-Length"]
                 (base_headers user_agent) in
  proxy <- liftH get_proxy ;;
  first <-
    match proxy with
    | Some p =>
        if Py.truthy p then
          try_except
            (resp <- open_via method (Some p) url headers data ;;
             relay resp ;;
             ret (true, [TryingProxy p; ProxyOk]))
            (fun e => ret (false, [TryingProxy p; ProxyFailed (str_exn e)]))
        else ret (false, [])
    | None => ret (false, [])
    end ;;
  second <-
    (if negb (fst first) then
       try_except
         (resp <- open_via method None url headers data ;;
          relay resp ;;
          ret (true, (snd first ++ [TryingDirect; DirectOk])%list))
         (fun e =>
            ret (false,
                 (snd first ++ [TryingDirect; DirectFailed (str_exn e)])%list))
     else ret first) ;;
  gemit (XLog INFO (Attempts method url (snd second))) ;;
  if negb (fst second)
  then gemit (Base (SendError 502 "All connection attempts failed"))
  else ret tt.

(** [WorkingHTTPSHandler.do_GET] *)
Definition do_GET (inbound : list (string * string)) (path : string)
  : G unit :=
  try_except
    (if String.eqb path "/" || String.eqb path ""
     then gemit (Base (SendError 400
            "No URL provided. Use format: http://localhost:8080/target-url"))
     else
       let url := normalize_url path in
       gemit (Base (Sleep (1000 * REQUEST_DELAY))) ;;
       make_request inbound url "GET" None)
    (fun e =>
       gemit (XLog ERROR (ErrorInDoGET (str_exn e))) ;;
       gemit (Base (SendError 500 (str_exn e)))).

Section DoPOST.
(** [int(s)], which raises [ValueError] on a text that is no integer,
    and [self.rfile.read(n)]; both belong to the Python library. *)
Variable int_of_str : string -> result Z.
Variable rfile_read : Z -> result string.

Definition lift_result {A} (r : result A) : G A := fun _ g => (r, g).

(** [int(self.headers.get('Content-Length', 0))] *)
Definition content_length (inbound : list (string * string)) : result Z :=
  match inbound_get inbound "Content-Length" with
  | Some value => int_of_str value
  | None => Ok 0%Z
  end.

(** [WorkingHTTPSHandler.do_POST] *)
Definition do_POST (inbound : list (string * string)) (path : string)
  : G unit :=
  try_except
    (let url := normalize_url path in
     n <- lift_result (content_length inbound) ;;
     post_data <-
       (if (0 <? n)%Z
        then body <- lift_result (rfile_read n) ;; ret (Some body)
        else ret None) ;;
     gemit (Base (Sleep (1000 * REQUEST_DELAY))) ;;
     make_request inbound url "POST" post_data)
    (fun e =>
       gemit (XLog ERROR (ErrorInDoPOST (str_exn e))) ;;
       gemit (Base (SendError 500 (str_exn e)))).
End DoPOST.

End Working.

(* ------------------------------------------------------------------ *)
(** ** Notions the statements are written with *)
(* ------------------------------------------------------------------ *)

(** The terminal status by failure kind: the upstream's status for an
    [HTTPError], 504 for a [URLError] or a [TimeoutError], 500 for
    every other exception. *)
Definition terminal_code (e : exn) : Z :=
  match e with
  | HTTPError code _ => code
  | URLError _ => 504
  | TimeoutError _ => 504
  | ConnectionResetError _ => 500
  | OtherException _ => 500
  end.

(** A trimmed line is taken when it is non-empty and has a colon. *)
Definition accepted (line : string) : bool :=
  Py.truthy line && Py.contains ":" line.

Definition http_prefixed (p : string) : Prop :=
  String.prefix "http://" p = true.

(** The candidates of a cycle, read off the world. *)
Definition candidates (w : refresh_world) : list string :=
  match urlopen (listing w), listing_text w with
  | Ok _, Ok raw => parse_lines (Py.split Py.newline (Py.strip raw)) []
  | _, _ => []
  end.

(** Does the k-th probe of the cycle pass validation: a reply came back
    and its status is 200. *)
Definition passes (w : refresh_world) (k : nat) : bool :=
  match urlopen (probe w k) with
  | Ok r => (status r =? 200)%Z
  | Raise _ => false
  end.

(** The proxies of [proxy_list] kept by a validation run that starts at
    probe [k] and may still test [budget] proxies. *)
Fixpoint kept (w : refresh_world) (k : nat) (proxy_list : list string)
         (budget : nat) : list string :=
  match proxy_list, budget with
  | proxy :: rest, S b =>
      if passes w k then proxy :: kept w (S k) rest b
      else kept w (S k) rest b
  | _, _ => []
  end.

(** The proxy an attempt that starts in state [s] draws: the choice is
    made on the third read of the pool (the first two are the emptiness
    tests of [forward_request] and of [get_random_proxy]). *)
Definition chosen (w : handler_world) (s : hstate) : string :=
  let pool := pool_read w (S (S (reads s))) in
  nth (draw w (draws s) mod List.length pool) pool EmptyString.

(** The route of the attempt: direct when the pool is empty at its
    first read, the chosen proxy otherwise. *)
Definition route (w : handler_world) (s : hstate) : option string :=
  if nonempty (pool_read w (reads s)) then Some (chosen w s) else None.

(** The log record written before the outbound call. *)
Definition announce (via : option string) (attempt : nat) (url : string)
  : event :=
  match via with
  | None => Log WARNING NoProxiesAvailable
  | Some p => Log INFO (AttemptUsing (attempt + 1) p url)
  end.

(** The log record written after a relayed response. *)
Definition farewell (via : option string) (url : string) : event :=
  match via with
  | None => Log INFO (ForwardedDirectly url)
  | Some p => Log INFO (ForwardedVia url p)
  end.

(** The message of the terminal [send_error]. *)
Definition terminal_message (e : exn) : string :=
  match e with
  | TimeoutError _ => "Request timed out"
  | _ => str_exn e
  end.

(** The log record of the second direct-connection branch. *)
Definition second_fallback (e : event) : bool :=
  match e with
  | Log WARNING NoProxyAvailable => true
  | _ => false
  end.

(** What the terminal [send_error] of attempt [attempt] sends for [e]:
    nothing unless the attempt is the last one. *)
Definition final_error (attempt : nat) (e : exn) : list event :=
  if last_attempt attempt
  then [SendError (terminal_code e) (terminal_message e)]
  else [].

(** The head of a response as the client is sent it: the status line
    and every header. *)
Definition reply_head (r : response) : list event :=
  (SendResponse (status r)
   :: map (fun kv => SendHeader (fst kv) (snd kv)) (getheaders r)
   ++ [EndHeaders])%list.

(** How the [with] block of outbound call [k] ends: with the reply when
    the call returned and the body was read, with the exception of the
    call or of the read otherwise. *)
Definition outcome (w : handler_world) (k : nat) : result response :=
  match urlopen (upstream w k) with
  | Ok r =>
      match read_fault w k with
      | Some e => Raise e
      | None => Ok r
      end
  | Raise e => Raise e
  end.

(** What the client had been sent of the reply of call [k] when the
    [with] block raised: nothing when the call itself raised, the head
    of the reply when the read of its body raised. *)
Definition sent_before_failure (w : handler_world) (k : nat) : list event :=
  match urlopen (upstream w k), read_fault w k with
  | Ok r, Some _ => reply_head r
  | _, _ => []
  end.

(** What the client is sent by the attempts [attempts], the first of
    which makes outbound call number [k]. *)
Fixpoint client_of (w : handler_world) (k : nat) (attempts : list nat)
  : list event :=
  match attempts with
  | [] => []
  | attempt :: rest =>
      match outcome w k with
      | Ok r => verbatim r
      | Raise e =>
          (sent_before_failure w k ++ final_error attempt e
           ++ client_of w (S k) rest)%list
      end
  end.

(** How many outbound calls these attempts make. *)
Fixpoint calls_of (w : handler_world) (k : nat) (attempts : list nat) : nat :=
  match attempts with
  | [] => 0
  | _ :: rest =>
      match outcome w k with
      | Ok _ => 1
      | Raise _ => S (calls_of w (S k) rest)
      end
  end.

(** The new events of one pass through the loop body, [try] and
    [except] together, sleep excluded. *)
Definition pass_events (w : handler_world) (s : hstate) (url : string)
           (headers : list (string * string)) (attempt : nat) (m : logmsg)
  : list event :=
  (announce (route w s) attempt url
   :: Request (route w s) url headers
   :: match outcome w (calls s) with
      | Ok r => verbatim r ++ [farewell (route w s) url]
      | Raise e =>
          sent_before_failure w (calls s)
          ++ Log ERROR m :: final_error attempt e
      end)%list.

(** [c in s] for one character. *)
Fixpoint has_char (c : ascii) (s : string) : bool :=
  match s with
  | EmptyString => false
  | String d r => Ascii.eqb d c || has_char c r
  end.

(** The proxies of [proxy_list], numbered from probe [k] on, that a
    validation run with [max_to_test] probes to spend keeps: those
    whose probe passed, in list order. *)
Definition validated (w : refresh_world) (k : nat) (proxy_list : list string)
           (max_to_test : nat) : list string :=
  map fst (filter (fun numbered => passes w (snd numbered))
                  (combine proxy_list (seq k max_to_test))).

Definition is_sleep (e : event) : bool :=
  match e with Sleep _ => true | _ => false end.



(** The part of an entry point's trace the client sees. *)
Definition gclient (t : list xevent) : list event :=
  flat_map (fun x => match x with
                     | Base e => if to_client e then [e] else []
                     | _ => []
                     end) t.

(** The outbound calls of an entry point's trace, in order. *)
Definition outbound (t : list xevent) : list xevent :=
  filter (fun x => match x with
                   | Base e => is_request e
                   | Call _ _ _ _ _ => true
                   | XLog _ _ => false
                   end) t.

(** The pauses of an entry point's trace, in order. *)
Definition gsleeps (t : list xevent) : list event :=
  flat_map (fun x => match x with
                     | Base e => if is_sleep e then [e] else []
                     | _ => []
                     end) t.

(** A response as [make_request] relays it: status, the headers whose
    lower-cased name is not in [skip_headers], the body. *)
Definition filtered (r : response) : list event :=
  (SendResponse (status r)
   :: map (fun kv => SendHeader (fst kv) (snd kv))
          (filter (fun kv => Working.forwarded (fst kv)) (getheaders r))
   ++ [EndHeaders; WfileWrite (body r)])%list.

(** The proxy [make_request] goes through when every read of the pool
    gives [pool] and the handler has drawn [d] numbers so far: none on
    an empty pool, none when the entry drawn is the empty string. *)
Definition proxy_pick (w : handler_world) (d : nat) (pool : list string)
  : option string :=
  match pool with
  | [] => None
  | _ :: _ =>
      let p := nth (draw w d mod List.length pool) pool EmptyString in
      if Py.truthy p then Some p else None
  end.

(** The headers [make_request] sends upstream when its user agent is
    drawn as draw number [d]. *)
Definition upstream_headers (w : handler_world) (d : nat)
           (inbound : list (string * string)) : list (string * string) :=
  Working.copy_headers inbound ["Content-Type"; "Content-Length"]
    (Working.base_headers
       (nth (draw w d mod List.length Working.USER_AGENTS)
            Working.USER_AGENTS EmptyString)).

Definition bad_gateway : xevent :=
  Base (SendError 502 "All connection attempts failed").

(** The head of a response as [make_request] relays it. *)
Definition filtered_head (r : response) : list event :=
  (SendResponse (status r)
   :: map (fun kv => SendHeader (fst kv) (snd kv))
          (filter (fun kv => Working.forwarded (fst kv)) (getheaders r))
   ++ [EndHeaders])%list.

(** What [make_request] had sent the client of the reply of call [k]
    when the [with] block raised. *)
Definition relayed_before_failure (w : handler_world) (k : nat)
  : list event :=
  match urlopen (upstream w k), read_fault w k with
  | Ok r, Some _ => filtered_head r
  | _, _ => []
  end.

(** What [make_request] adds to the trace, by the route it takes: the
    proxy alone, the proxy and then the direct connection, or the
    direct connection alone. *)
Definition make_request_events (w : handler_world) (pool : list string)
           (inbound : list (string * string)) (url method : string)
           (data : option string) (g : gstate) : list xevent :=
  let headers := upstream_headers w (gdraws g) inbound in
  let direct := Call method None url headers data in
  let summary notes := XLog INFO (Attempts method url notes) in
  match proxy_pick w (S (gdraws g)) pool with
  | Some p =>
      (Call method (Some p) url headers data
       :: match outcome w (gcalls g) with
          | Ok r =>
              map Base (filtered r) ++ [summary [TryingProxy p; ProxyOk]]
          | Raise e =>
              map Base (relayed_before_failure w (gcalls g))
              ++ direct
              :: match outcome w (S (gcalls g)) with
                 | Ok r =>
                     map Base (filtered r)
                     ++ [summary [TryingProxy p; ProxyFailed (str_exn e);
                                  TryingDirect; DirectOk]]
                 | Raise e' =>
                     map Base (relayed_before_failure w (S (gcalls g)))
                     ++ [summary [TryingProxy p; ProxyFailed (str_exn e);
                                  TryingDirect; DirectFailed (str_exn e')];
                         bad_gateway]
                 end
          end)%list
  | None =>
      (direct
       :: match outcome w (gcalls g) with
          | Ok r => map Base (filtered r) ++ [summary [TryingDirect; DirectOk]]
          | Raise e =>
              map Base (relayed_before_failure w (gcalls g))
              ++ [summary [TryingDirect; DirectFailed (str_exn e)];
                  bad_gateway]
          end)%list
  end.



(** The body [do_POST] reads for a declared length [n]: none unless
    [n] is positive. *)
Definition posted (rfile_read : Z -> result string) (n : Z)
  : result (option string) :=
  if (0 <? n)%Z
  then match rfile_read n with
       | Ok body => Ok (Some body)
       | Raise e => Raise e
       end
  else Ok None.

(* ------------------------------------------------------------------ *)
(** ** Sample worlds *)
(* ------------------------------------------------------------------ *)

Definition ok_reply (text : string) : response :=
  mkResponse 200 "OK" [("Content-Type", "text/plain")] text.

Definition not_found : response :=
  mkResponse 404 "Not Found" [("Server", "nginx")] "missing".

(** A listing of four lines: two proxies, a blank line and a line
    without a colon. *)
Definition sample_listing : string :=
  String.concat (String Py.newline EmptyString)
                ["1.2.3.4:80 "; ""; "garbage"; "5.6.7.8:3128"].

(** The pool after the sample refresh in which every probe failed. *)
Definition sample_pool : list string :=
  ["http://1.2.3.4:80"; "http://5.6.7.8:3128"].

Definition sample_headers : list (string * string) :=
  [("User-Agent", "Mozilla/5.0"); ("Connection", "keep-alive")].

(** A refresh in which the listing arrives and every probe fails. *)
Definition w_all_probes_fail : refresh_world :=
  mkRefreshWorld (Reply (ok_reply sample_listing)) (Ok sample_listing)
                 (fun _ => Failure (URLError "Connection refused")).

(** A refresh in which the listing arrives and only the second probe
    gets a 200. *)
Definition w_second_probe_ok : refresh_world :=
  mkRefreshWorld (Reply (ok_reply sample_listing)) (Ok sample_listing)
                 (fun k => if (k =? 1)%nat then Reply (ok_reply "{}")
                           else Failure (TimeoutError "timed out")).

(** A refresh in which the listing service answers 503. *)
Definition w_listing_503 : refresh_world :=
  mkRefreshWorld (Reply (mkResponse 503 "Service Unavailable" [] ""))
                 (Ok "") (fun _ => Failure (TimeoutError "timed out")).

(** Empty pool; the upstream answers 404 to the first call and 200 to
    every later one. *)
Definition w_404_then_200 : handler_world :=
  mkHandlerWorld (fun _ => []) (fun _ => 0)
    (fun k => if (k =? 0)%nat then Reply not_found
              else Reply (ok_reply "1.2.3.4"))
    (fun _ => None).


(** Sample pool; two refused connections, then a timeout. *)
Definition w_all_down : handler_world :=
  mkHandlerWorld (fun _ => sample_pool) (fun k => k)
    (fun k => if (k <? 2)%nat then Failure (URLError "Connection refused")
              else Failure (TimeoutError "timed out"))
    (fun _ => None).

(** Empty pool; the upstream closes the connection before it replies,
    every time. *)
Definition w_connection_reset : handler_world :=
  mkHandlerWorld (fun _ => []) (fun _ => 0)
    (fun _ => Failure (ConnectionResetError
                         "Remote end closed connection without response"))
    (fun _ => None).

(** Empty pool; the upstream answers 200 every time, and the read of
    the first reply's body breaks off. *)
Definition w_body_cut_short : handler_world :=
  mkHandlerWorld (fun _ => []) (fun _ => 0)
    (fun _ => Reply (ok_reply "1.2.3.4"))
    (fun k => if (k =? 0)%nat
              then Some (OtherException
                           "IncompleteRead(3 bytes read, 4 more expected)")
              else None).

(** A reply that carries the three headers [make_request] skips,
    one of them in lower case, and one that it relays. *)
Definition hop_reply : response :=
  mkResponse 200 "OK"
    [("Connection", "close"); ("Content-Type", "text/plain");
     ("Transfer-Encoding", "chunked"); ("content-encoding", "gzip")]
    "hello".

(** Sample pool; every call gets the reply with the skipped headers. *)
Definition w_hop_headers : handler_world :=
  mkHandlerWorld (fun _ => sample_pool) (fun k => k)
    (fun _ => Reply hop_reply) (fun _ => None).

(** Sample pool; the first call gets a 200 whose body read breaks off,
    every later call is refused. *)
Definition w_proxy_body_cut_short : handler_world :=
  mkHandlerWorld (fun _ => sample_pool) (fun k => k)
    (fun k => if (k =? 0)%nat then Reply (ok_reply "1.2.3.4")
              else Failure (URLError "Connection refused"))
    (fun k => if (k =? 0)%nat
              then Some (OtherException
                           "IncompleteRead(3 bytes read, 4 more expected)")
              else None).

(** Sample pool; two failures, then a 200 through the third proxy
    drawn. *)
Definition w_third_time_lucky : handler_world :=
  mkHandlerWorld (fun _ => sample_pool) (fun k => k)
    (fun k => if (k <? 2)%nat then Failure (URLError "Connection refused")
              else Reply (ok_reply "1.2.3.4"))
    (fun _ => None).

(** [int(s)] on a text: white space at the ends is dropped, a sign may
    lead, and decimal digits follow, single underscores allowed between
    them; any other text raises [ValueError].  Digits outside ASCII,
    which Python accepts too, are left out, and the text is quoted in
    the message as Python quotes a text without quotes or backslashes;
    the definition serves the sample runs, the theorems take the
    conversion as a parameter. *)
Fixpoint decimal_digits (s : string) (after_digit : bool) (acc : Z)
  : option Z :=
  match s with
  | EmptyString => if after_digit then Some acc else None
  | String c r =>
      let n := Z.of_N (N_of_ascii c) in
      if ((48 <=? n) && (n <=? 57))%Z
      then decimal_digits r true (10 * acc + (n - 48))%Z
      else if Ascii.eqb c "_" && after_digit
           then decimal_digits r false acc
           else None
  end.

Definition decimal_int (s : string) : result Z :=
  let parsed :=
    match Py.strip s with
    | EmptyString => None
    | String c r =>
        if Ascii.eqb c "-" then option_map Z.opp (decimal_digits r false 0%Z)
        else if Ascii.eqb c "+" then decimal_digits r false 0%Z
        else decimal_digits (String c r) false 0%Z
    end in
  match parsed with
  | Some n => Ok n
  | None =>
      Raise (OtherException
               ("invalid literal for int() with base 10: '" ++ s ++ "'"))
  end.

(** A request body of eleven bytes. *)
Definition sample_rfile (n : Z) : result string :=
  Ok (substring 0 (Z.to_nat n) "hello world").

(* ------------------------------------------------------------------ *)
(** ** Sample runs *)
(* ------------------------------------------------------------------ *)

Example strip_sample : Py.strip "  1.2.3.4:80 " = "1.2.3.4:80".
Proof. reflexivity. Qed.

Example split_sample :
  Py.split Py.newline (String "a" (String Py.newline (String Py.newline "b")))
  = ["a"; ""; "b"].
Proof. reflexivity. Qed.

Example split_empty : Py.split Py.newline "" = [""].
Proof. reflexivity. Qed.

Example lower_sample : Py.lower "GitHub.COM/Foo" = "github.com/foo".
Proof. reflexivity. Qed.

Example str_exn_sample :
  str_exn (HTTPError 404 "Not Found") = "HTTP Error 404: Not Found".
Proof. reflexivity. Qed.

Example urlopen_404 : urlopen (Reply not_found) = Raise (HTTPError 404 "Not Found").
Proof. reflexivity. Qed.

Example fetch_sample :
  fst (fetch_proxies_from_api w_all_probes_fail r0)
  = Ok ["http://1.2.3.4:80"; "http://5.6.7.8:3128"].
Proof. reflexivity. Qed.

Example update_sample_fallback :
  PROXY_POOL (snd (update_proxy_pool w_all_probes_fail r0))
  = ["http://1.2.3.4:80"; "http://5.6.7.8:3128"].
Proof. reflexivity. Qed.

Example update_sample_validated :
  PROXY_POOL (snd (update_proxy_pool w_second_probe_ok r0))
  = ["http://5.6.7.8:3128"].
Proof. reflexivity. Qed.

Example update_sample_stale :
  PROXY_POOL (snd (update_proxy_pool w_listing_503 (mkRState ["http://9.9.9.9:1"] 0 [])))
  = ["http://9.9.9.9:1"].
Proof. reflexivity. Qed.

(* ------------------------------------------------------------------ *)
(** ** Strings and the line parser *)
(* ------------------------------------------------------------------ *)

Lemma prefix_append (p s : string) : String.prefix p (p ++ s) = true.
Proof.
  induction p as [|c p IH]; simpl.
  - destruct s; reflexivity.
  - destruct (ascii_dec c c) as [_|ne]; [exact IH | congruence].
Qed.

Lemma prefix_split (p s : string) :
  String.prefix p s = true -> exists rest, s = p ++ rest.
Proof.
  revert s. induction p as [|c p IH]; intros s H.
  - exists s. reflexivity.
  - destruct s as [|d s]; [discriminate|]. simpl in H.
    destruct (ascii_dec c d) as [<-|]; [|discriminate].
    destruct (IH s H) as [rest ->]. exists rest. reflexivity.
Qed.

Lemma parse_lines_spec (lines proxies : list string) :
  parse_lines lines proxies
  = (proxies
     ++ map (String.append "http://") (filter accepted (map Py.strip lines)))%list.
Proof.
  revert proxies.
  induction lines as [|line rest IH]; intros proxies; simpl.
  - now rewrite app_nil_r.
  - unfold accepted at 1.
    destruct (Py.truthy (Py.strip line) && Py.contains ":" (Py.strip line)).
    + rewrite IH, <- app_assoc. reflexivity.
    + apply IH.
Qed.

Lemma parse_lines_prefixed (lines : list string) :
  Forall http_prefixed (parse_lines lines []).
Proof.
  rewrite parse_lines_spec. simpl.
  apply Forall_forall. intros p Hp.
  apply in_map_iff in Hp. destruct Hp as [line [<- _]].
  exact (prefix_append "http://" line).
Qed.

Lemma http_prefixed_truthy (p : string) : http_prefixed p -> Py.truthy p = true.
Proof. destruct p; [discriminate | reflexivity]. Qed.

(* ------------------------------------------------------------------ *)
(** ** Running the refresher *)
(* ------------------------------------------------------------------ *)

Lemma fetch_proxies_from_api_run (w : refresh_world) (s : rstate) :
  exists s',
    fetch_proxies_from_api w s = (Ok (candidates w), s')
    /\ PROXY_POOL s' = PROXY_POOL s /\ probes s' = probes s.
Proof.
  unfold fetch_proxies_from_api, candidates, try_except, bind, remit,
    listing_open, read_decode, ret.
  simpl.
  destruct (urlopen (listing w)) as [r|e]; simpl.
  - destruct (listing_text w) as [raw|e]; simpl; eauto.
  - eauto.
Qed.

Lemma validate_proxy_run (proxy url : string) (w : refresh_world) (s : rstate) :
  exists s',
    validate_proxy proxy url w s
    = (Ok match urlopen (probe w (probes s)) with
          | Ok r => (status r =? 200)%Z
          | Raise _ => false
          end, s')
    /\ PROXY_POOL s' = PROXY_POOL s /\ probes s' = S (probes s).
Proof.
  unfold validate_proxy, try_except, bind, probe_open, ret. simpl.
  destruct (urlopen (probe w (probes s))) as [r|e]; simpl.
  - destruct (status r =? 200)%Z; eauto.
  - eauto.
Qed.

Lemma kept_In (w : refresh_world) (l : list string) :
  forall (k budget : nat) (p : string), In p (kept w k l budget) -> In p l.
Proof.
  induction l as [|q rest IH]; intros k budget p Hp; simpl in Hp.
  - destruct Hp.
  - destruct budget as [|b]; [destruct Hp|].
    destruct (passes w k).
    + destruct Hp as [<-|Hp]; [left; reflexivity | right; eauto].
    + right; eauto.
Qed.

Lemma kept_firstn (w : refresh_world) (l : list string) :
  forall (k budget : nat) (p : string),
    In p (kept w k l budget) -> In p (firstn budget l).
Proof.
  induction l as [|q rest IH]; intros k budget p Hp; simpl in Hp.
  - destruct Hp.
  - destruct budget as [|b]; [destruct Hp|]. simpl.
    destruct (passes w k).
    + destruct Hp as [<-|Hp]; [left; reflexivity | right; eauto].
    + right; eauto.
Qed.

Lemma kept_none (w : refresh_world) (l : list string) :
  forall (k budget : nat),
    (forall i, i < Nat.min budget (List.length l) -> passes w (k + i) = false) ->
    kept w k l budget = [].
Proof.
  induction l as [|q rest IH]; intros k budget Hfail; simpl.
  - reflexivity.
  - destruct budget as [|b]; [reflexivity|].
    assert (H0 : passes w k = false).
    { rewrite <- (Nat.add_0_r k). apply Hfail. simpl. lia. }
    rewrite H0. apply IH. intros i Hi.
    replace (S k + i) with (k + S i) by lia.
    apply Hfail. simpl. lia.
Qed.

Lemma kept_some (w : refresh_world) (l : list string) :
  forall (k budget : nat),
    kept w k l budget = [] ->
    forall i, i < Nat.min budget (List.length l) -> passes w (k + i) = false.
Proof.
  induction l as [|q rest IH]; intros k budget Hnil i Hi; simpl in *.
  - lia.
  - destruct budget as [|b]; [simpl in Hi; lia|].
    destruct (passes w k) eqn:Hk; [discriminate|].
    destruct i as [|i].
    + rewrite Nat.add_0_r. exact Hk.
    + replace (k + S i) with (S k + i) by lia.
      apply (IH (S k) b Hnil). simpl in Hi. lia.
Qed.

(** The loop of [get_working_proxies] returns, leaves the pool alone,
    spends one probe per tested proxy and appends exactly the proxies
    whose probe passed. *)
Lemma test_loop_run (proxy_list : list string) :
  forall (max_to_test tested : nat) (working : list string)
         (w : refresh_world) (s : rstate),
  exists s' : rstate,
    test_loop proxy_list max_to_test tested working w s
    = (Ok ((working ++ kept w (probes s) proxy_list (max_to_test - tested))%list,
           tested + Nat.min (max_to_test - tested) (List.length proxy_list)), s')
    /\ PROXY_POOL s' = PROXY_POOL s.
Proof.
  induction proxy_list as [|proxy rest IH]; intros mx tested working w s.
  - exists s. simpl. unfold ret.
    replace (kept w (probes s) [] (mx - tested)) with (@nil string)
      by (destruct (mx - tested); reflexivity).
    rewrite app_nil_r, Nat.min_0_r, Nat.add_0_r. auto.
  - simpl test_loop.
    destruct (mx <=? tested)%nat eqn:Hle.
    + apply Nat.leb_le in Hle.
      replace (mx - tested) with 0 by lia.
      exists s. unfold ret. simpl.
      rewrite app_nil_r, Nat.add_0_r. auto.
    + apply Nat.leb_gt in Hle.
      replace (mx - tested) with (S (mx - S tested)) by lia.
      destruct (validate_proxy_run proxy default_test_url w s)
        as [s1 [Hv [Hp1 Hn1]]].
      unfold bind at 1. rewrite Hv. fold (passes w (probes s)).
      simpl kept. simpl List.length.
      destruct (passes w (probes s)).
      * unfold bind, remit, ret; simpl.
        match goal with
        | |- context [test_loop rest mx (S tested) ?acc w ?st] =>
            destruct (IH mx (S tested) acc w st) as [s' [E Hp]]
        end.
        exists s'. rewrite E. simpl probes. simpl in Hp. rewrite Hn1.
        split; [|congruence].
        rewrite <- app_assoc, Nat.add_succ_comm. reflexivity.
      * unfold bind, remit, ret; simpl.
        match goal with
        | |- context [test_loop rest mx (S tested) ?acc w ?st] =>
            destruct (IH mx (S tested) acc w st) as [s' [E Hp]]
        end.
        exists s'. rewrite E. simpl probes. simpl in Hp. rewrite Hn1.
        split; [|congruence].
        rewrite Nat.add_succ_comm. reflexivity.
Qed.

Lemma get_working_proxies_run (proxy_list : list string) (max_to_test : nat)
      (w : refresh_world) (s : rstate) :
  exists s' : rstate,
    get_working_proxies proxy_list max_to_test w s
    = (Ok (kept w (probes s) proxy_list max_to_test), s')
    /\ PROXY_POOL s' = PROXY_POOL s.
Proof.
  unfold get_working_proxies, bind, remit, ret. simpl.
  match goal with
  | |- context [test_loop proxy_list max_to_test 0 [] w ?st] =>
      destruct (test_loop_run proxy_list max_to_test 0 [] w st)
        as [s' [E Hp]]
  end.
  rewrite E. simpl. rewrite Nat.sub_0_r.
  eexists. split; [reflexivity|]. exact Hp.
Qed.

(** One refresh cycle returns, and the pool it leaves is decided by the
    candidates and by which probes passed. *)
Lemma update_proxy_pool_run (w : refresh_world) (s : rstate) :
  exists s' : rstate,
    update_proxy_pool w s = (Ok tt, s')
    /\ PROXY_POOL s'
       = match candidates w with
         | [] => PROXY_POOL s
         | _ :: _ =>
             match kept w (probes s) (candidates w) 100 with
             | [] => firstn 50 (candidates w)
             | _ :: _ => kept w (probes s) (candidates w) 100
             end
         end.
Proof.
  destruct (fetch_proxies_from_api_run w s) as [s1 [Hf [Hp1 Hn1]]].
  unfold update_proxy_pool. unfold bind at 1. rewrite Hf.
  destruct (candidates w) as [|c cs] eqn:Hc.
  - simpl. unfold remit. eexists. split; [reflexivity|]. exact Hp1.
  - cbv beta iota delta [nonempty].
    destruct (get_working_proxies_run (c :: cs) 100 w s1) as [s2 [Hg Hp2]].
    unfold bind at 1. rewrite Hg. rewrite Hn1.
    destruct (kept w (probes s) (c :: cs) 100) as [|k ks] eqn:Hk;
      unfold bind, set_PROXY_POOL, remit; simpl;
      eexists; (split; [reflexivity|]); reflexivity.
Qed.

(* ------------------------------------------------------------------ *)
(** ** What a refresh cycle preserves *)
(* ------------------------------------------------------------------ *)

Lemma candidates_prefixed (w : refresh_world) :
  Forall http_prefixed (candidates w).
Proof.
  unfold candidates.
  destruct (urlopen (listing w)); [|constructor].
  destruct (listing_text w); [|constructor].
  apply parse_lines_prefixed.
Qed.

Lemma Forall_firstn {A} (P : A -> Prop) (n : nat) (l : list A) :
  Forall P l -> Forall P (firstn n l).
Proof.
  intros HP. apply Forall_forall. intros x Hx.
  rewrite Forall_forall in HP. apply HP.
  rewrite <- (firstn_skipn n l). apply in_or_app. now left.
Qed.

Lemma refresh_step_prefixed (p q : list string) :
  refresh_step p q -> Forall http_prefixed p -> Forall http_prefixed q.
Proof.
  intros [w [s [s' [Hp [Hrun Hq]]]]] HP.
  destruct (update_proxy_pool_run w s) as [s2 [Hrun2 Hpool]].
  rewrite Hrun in Hrun2. injection Hrun2 as <-.
  rewrite <- Hq, Hpool.
  pose proof (candidates_prefixed w) as Hc.
  destruct (candidates w) as [|c cs] eqn:Ec; [now rewrite Hp|].
  destruct (kept w (probes s) (c :: cs) 100) as [|k ks] eqn:Ek.
  - now apply Forall_firstn.
  - rewrite <- Ek. apply Forall_forall. intros x Hx.
    rewrite Forall_forall in Hc. apply Hc. eapply kept_In; eauto.
Qed.

Lemma refresh_step_nonempty (p q : list string) :
  refresh_step p q -> p <> [] -> q <> [].
Proof.
  intros [w [s [s' [Hp [Hrun Hq]]]]] Hne.
  destruct (update_proxy_pool_run w s) as [s2 [Hrun2 Hpool]].
  rewrite Hrun in Hrun2. injection Hrun2 as <-.
  rewrite <- Hq, Hpool.
  destruct (candidates w) as [|c cs]; [now rewrite Hp|].
  destruct (kept w (probes s) (c :: cs) 100); simpl; discriminate.
Qed.

Lemma refreshes_prefixed (p q : list string) :
  refreshes p q -> Forall http_prefixed p -> Forall http_prefixed q.
Proof.
  induction 1 as [|y z Hstep _ IH]; intros HP; [assumption|].
  eapply refresh_step_prefixed; eauto.
Qed.

Lemma refreshes_nonempty (p q : list string) :
  refreshes p q -> p <> [] -> q <> [].
Proof.
  induction 1 as [|y z Hstep _ IH]; intros HP; [assumption|].
  eapply refresh_step_nonempty; eauto.
Qed.

Lemma reachable_prefixed (pool : list string) :
  reachable pool -> Forall http_prefixed pool.
Proof. intros Hr. apply (refreshes_prefixed Hr). constructor. Qed.

Lemma history_prefixed (w : handler_world) :
  valid_history w -> forall k, Forall http_prefixed (pool_read w k).
Proof.
  intros [H0 Hstep] k. induction k as [|k IH].
  - now apply reachable_prefixed.
  - exact (refreshes_prefixed (Hstep k) IH).
Qed.

Lemma history_nonempty (w : handler_world) :
  valid_history w ->
  forall k, pool_read w k <> [] -> pool_read w (S k) <> [].
Proof. intros [_ Hstep] k. exact (refreshes_nonempty (Hstep k)). Qed.

(** A pool that never changes during a request is a valid history when
    it is reachable. *)
Lemma constant_history_valid (pool : list string) (d : nat -> nat)
      (u : nat -> wire) (f : nat -> option exn) :
  reachable pool -> valid_history (mkHandlerWorld (fun _ => pool) d u f).
Proof. intros Hr. split; [exact Hr | intros k; constructor]. Qed.

Lemma refreshed_is_reachable (w : refresh_world) (s : rstate) :
  reachable (PROXY_POOL s) ->
  reachable (PROXY_POOL (snd (update_proxy_pool w s))).
Proof.
  intros Hr.
  destruct (update_proxy_pool_run w s) as [s' [Hrun _]].
  rewrite Hrun. simpl.
  apply rtn1_trans with (y := PROXY_POOL s); [|exact Hr].
  exists w, s, s'. auto.
Qed.

(* ------------------------------------------------------------------ *)
(** ** Running one attempt *)
(* ------------------------------------------------------------------ *)

Lemma send_headers_run (hs : list (string * string)) :
  forall (w : handler_world) (s : hstate),
    send_headers hs w s
    = (Ok tt, mkHState (reads s) (draws s) (calls s) (local_proxy s)
                       (trace s ++ map (fun kv => SendHeader (fst kv) (snd kv)) hs)).
Proof.
  induction hs as [|[key value] rest IH]; intros w s; simpl.
  - unfold ret. rewrite app_nil_r. now destruct s.
  - unfold bind, emit. simpl. rewrite IH. simpl.
    now rewrite <- app_assoc.
Qed.

(** The relay of a reply: whole when the body is read, the head alone
    when the read raises. *)
Lemma relay_run (r : response) (w : handler_world) (s : hstate) :
  relay r w s
  = match read_fault w (pred (calls s)) with
    | None =>
        (Ok tt, mkHState (reads s) (draws s) (calls s) (local_proxy s)
                         (trace s ++ verbatim r))
    | Some e =>
        (Raise e, mkHState (reads s) (draws s) (calls s) (local_proxy s)
                           (trace s ++ reply_head r))
    end.
Proof.
  unfold relay, bind, emit, read_body. simpl. rewrite send_headers_run. simpl.
  destruct (read_fault w (pred (calls s)));
    unfold verbatim, reply_head; simpl; repeat rewrite <- app_assoc;
    reflexivity.
Qed.

Lemma nth_mod_In (l : list string) (n : nat) :
  l <> [] -> In (nth (n mod List.length l) l EmptyString) l.
Proof.
  intros Hne. apply nth_In. apply Nat.mod_upper_bound.
  destruct l; [congruence | simpl; lia].
Qed.

(** Closes an equation between two final states that differ only in
    how their traces are bracketed. *)
Ltac trace_eq :=
  unfold ret, verbatim, reply_head; simpl;
  repeat (rewrite <- app_assoc; simpl);
  reflexivity.

Section Attempt.
Variable w : handler_world.
Hypothesis Hvalid : valid_history w.
Variables (url : string) (headers : list (string * string)).

Lemma chosen_In (s : hstate) :
  pool_read w (reads s) <> [] ->
  In (chosen w s) (pool_read w (S (S (reads s)))).
Proof.
  intros Hne. apply nth_mod_In.
  now do 2 apply (history_nonempty Hvalid).
Qed.

Lemma chosen_truthy (s : hstate) :
  pool_read w (reads s) <> [] -> Py.truthy (chosen w s) = true.
Proof.
  intros Hne. apply http_prefixed_truthy.
  pose proof (history_prefixed Hvalid (S (S (reads s)))) as HP.
  rewrite Forall_forall in HP. apply HP. now apply chosen_In.
Qed.

(** [get_random_proxy] on an empty pool. *)
Lemma get_random_proxy_empty (s : hstate) :
  pool_read w (reads s) = [] ->
  get_random_proxy w s
  = (Ok None,
     mkHState (S (reads s)) (draws s) (calls s) (local_proxy s) (trace s)).
Proof.
  intros E.
  unfold get_random_proxy, bind, read_PROXY_POOL, ret.
  now rewrite E.
Qed.

(** [get_random_proxy] on a non-empty pool: the pool is read a second
    time, for the choice. *)
Lemma get_random_proxy_nonempty (s : hstate) :
  pool_read w (reads s) <> [] ->
  get_random_proxy w s
  = (Ok (Some (nth (draw w (draws s)
                    mod List.length (pool_read w (S (reads s))))
                   (pool_read w (S (reads s))) EmptyString)),
     mkHState (S (S (reads s))) (S (draws s)) (calls s)
              (local_proxy s) (trace s)).
Proof.
  intros Hne.
  pose proof (history_nonempty Hvalid _ Hne) as Hne1.
  unfold get_random_proxy, bind, read_PROXY_POOL, random_choice, ret.
  destruct (pool_read w (reads s)) as [|p ps]; [congruence|].
  simpl.
  destruct (pool_read w (S (reads s))) as [|q qs]; [congruence|].
  reflexivity.
Qed.

(** The [try:] block: what it returns and what it leaves behind. *)
Lemma attempt_body_run (attempt : nat) (s : hstate) :
  exists (lp : option (option string)) (n d : nat),
    attempt_body url headers attempt w s
    = match outcome w (calls s) with
      | Ok r =>
          (Ok Returned,
           mkHState n d (S (calls s)) lp
             (trace s ++ announce (route w s) attempt url
                      :: Request (route w s) url headers
                      :: verbatim r ++ [farewell (route w s) url]))
      | Raise e =>
          (Raise e,
           mkHState n d (S (calls s)) lp
             (trace s ++ announce (route w s) attempt url
                      :: Request (route w s) url headers
                      :: sent_before_failure w (calls s)))
      end.
Proof.
  unfold attempt_body, route, outcome, sent_before_failure.
  unfold bind at 1. unfold read_PROXY_POOL at 1. cbv beta iota.
  destruct (pool_read w (reads s)) as [|p ps] eqn:E.
  - exists (local_proxy s), (S (reads s)), (draws s).
    cbv beta iota delta [nonempty negb].
    unfold bind, emit, open_via. simpl.
    destruct (urlopen (upstream w (calls s))) as [r|e]; simpl.
    + rewrite relay_run. cbn [calls pred].
      destruct (read_fault w (calls s)); trace_eq.
    + trace_eq.
  - cbv beta iota delta [nonempty negb].
    assert (Hne : pool_read w (reads s) <> []) by (rewrite E; discriminate).
    unfold bind at 1.
    rewrite get_random_proxy_nonempty
      by exact (history_nonempty Hvalid _ Hne).
    cbn [reads draws calls local_proxy trace].
    change (nth _ _ _) with (chosen w s).
    unfold bind at 1. unfold assign_proxy at 1. cbv beta iota.
    rewrite (chosen_truthy s Hne).
    cbv beta iota delta [negb].
    exists (Some (Some (chosen w s))), (S (S (S (reads s)))), (S (draws s)).
    unfold bind, emit, open_via. simpl.
    destruct (urlopen (upstream w (calls s))) as [r|e]; simpl.
    + rewrite relay_run. cbn [calls pred].
      destruct (read_fault w (calls s)); trace_eq.
    + trace_eq.
Qed.
End Attempt.

(* ------------------------------------------------------------------ *)
(** ** Running the retry loop *)
(* ------------------------------------------------------------------ *)

Lemma client_view_app (t u : list event) :
  client_view (t ++ u) = (client_view t ++ client_view u)%list.
Proof. apply filter_app. Qed.

Lemma client_view_cons (e : event) (t : list event) :
  client_view (e :: t) = (client_view [e] ++ client_view t)%list.
Proof. exact (client_view_app [e] t). Qed.

Lemma client_view_verbatim (r : response) :
  client_view (verbatim r) = verbatim r.
Proof.
  unfold verbatim, client_view. simpl. f_equal.
  induction (getheaders r) as [|kv hs IH]; simpl; [reflexivity|].
  now rewrite IH.
Qed.

Lemma requests_app (t u : list event) :
  requests (t ++ u) = (requests t ++ requests u)%list.
Proof. apply filter_app. Qed.

Lemma requests_cons (e : event) (t : list event) :
  requests (e :: t) = (requests [e] ++ requests t)%list.
Proof. exact (requests_app [e] t). Qed.

Lemma requests_verbatim (r : response) : requests (verbatim r) = [].
Proof.
  unfold verbatim, requests. simpl.
  induction (getheaders r) as [|kv hs IH]; simpl; [reflexivity|exact IH].
Qed.

Lemma no_second_fallback_verbatim (r : response) :
  existsb second_fallback (verbatim r) = false.
Proof.
  unfold verbatim. simpl.
  induction (getheaders r) as [|kv hs IH]; simpl; [reflexivity|exact IH].
Qed.

Lemma client_view_reply_head (r : response) :
  client_view (reply_head r) = reply_head r.
Proof.
  unfold reply_head, client_view. simpl. f_equal.
  induction (getheaders r) as [|kv hs IH]; simpl; [reflexivity|].
  now rewrite IH.
Qed.

Lemma requests_reply_head (r : response) : requests (reply_head r) = [].
Proof.
  unfold reply_head, requests. simpl.
  induction (getheaders r) as [|kv hs IH]; simpl; [reflexivity|exact IH].
Qed.

Lemma no_second_fallback_reply_head (r : response) :
  existsb second_fallback (reply_head r) = false.
Proof.
  unfold reply_head. simpl.
  induction (getheaders r) as [|kv hs IH]; simpl; [reflexivity|exact IH].
Qed.

Lemma client_view_sent_before_failure (w : handler_world) (k : nat) :
  client_view (sent_before_failure w k) = sent_before_failure w k.
Proof.
  unfold sent_before_failure.
  destruct (urlopen (upstream w k)); [|reflexivity].
  destruct (read_fault w k); [apply client_view_reply_head | reflexivity].
Qed.

Lemma requests_sent_before_failure (w : handler_world) (k : nat) :
  requests (sent_before_failure w k) = [].
Proof.
  unfold sent_before_failure.
  destruct (urlopen (upstream w k)); [|reflexivity].
  destruct (read_fault w k); [apply requests_reply_head | reflexivity].
Qed.

Lemma no_second_fallback_sent_before_failure (w : handler_world) (k : nat) :
  existsb second_fallback (sent_before_failure w k) = false.
Proof.
  unfold sent_before_failure.
  destruct (urlopen (upstream w k)); [|reflexivity].
  destruct (read_fault w k); [apply no_second_fallback_reply_head | reflexivity].
Qed.

(** An attempt whose call raised had sent the client nothing. *)
Lemma outcome_of_failed_call (w : handler_world) (k : nat) (e : exn) :
  urlopen (upstream w k) = Raise e ->
  outcome w k = Raise e /\ sent_before_failure w k = [].
Proof.
  intros E. unfold outcome, sent_before_failure. now rewrite E.
Qed.



Lemma outcome_ok (w : handler_world) (k : nat) (r : response) :
  outcome w k = Ok r ->
  urlopen (upstream w k) = Ok r /\ read_fault w k = None.
Proof.
  unfold outcome. destruct (urlopen (upstream w k)) as [r'|e]; [|discriminate].
  destruct (read_fault w k); [discriminate|].
  intros H. injection H as <-. auto.
Qed.

Lemma client_view_announce via attempt url :
  client_view [announce via attempt url] = [].
Proof. now destruct via. Qed.

Lemma client_view_farewell via url : client_view [farewell via url] = [].
Proof. now destruct via. Qed.

Lemma requests_announce via attempt url :
  requests [announce via attempt url] = [].
Proof. now destruct via. Qed.

Lemma requests_farewell via url : requests [farewell via url] = [].
Proof. now destruct via. Qed.

Lemma no_second_fallback_announce via attempt url :
  second_fallback (announce via attempt url) = false.
Proof. now destruct via. Qed.

Lemma no_second_fallback_farewell via url :
  second_fallback (farewell via url) = false.
Proof. now destruct via. Qed.

Lemma requests_of_attempt via attempt url headers (t : list event) :
  requests t = [] ->
  requests (announce via attempt url :: Request via url headers :: t)
  = [Request via url headers].
Proof.
  intros Ht. rewrite requests_cons, requests_announce. cbn [app].
  rewrite (requests_cons (Request via url headers)), Ht. reflexivity.
Qed.

Lemma no_second_fallback_in_attempt via attempt url headers (t : list event) :
  existsb second_fallback t = false ->
  existsb second_fallback
          (announce via attempt url :: Request via url headers :: t) = false.
Proof.
  intros Ht. cbn [existsb]. rewrite no_second_fallback_announce, Ht.
  reflexivity.
Qed.

Lemma on_exception_run (url : string) (attempt : nat) (e : exn)
      (w : handler_world) (s : hstate) :
  exists m : logmsg,
    on_exception url attempt e w s
    = (Ok Continue,
       mkHState (reads s) (draws s) (calls s) (local_proxy s)
                (trace s ++ Log ERROR m :: final_error attempt e)).
Proof.
  unfold on_exception, final_error, bind, who, emit.
  destruct e; destruct (last_attempt attempt); simpl;
    eexists; trace_eq.
Qed.

Section Loop.
Variable w : handler_world.
Hypothesis Hvalid : valid_history w.
Variables (url : string) (headers : list (string * string)).

(** One pass through the loop body never raises, makes exactly one
    outbound call, and returns exactly when that call returned and the
    body of its reply was read. *)
Lemma pass_run (attempt : nat) (s : hstate) :
  exists (m : logmsg) (s' : hstate),
    try_except (attempt_body url headers attempt)
               (on_exception url attempt) w s
    = (Ok match outcome w (calls s) with
          | Ok _ => Returned
          | Raise _ => Continue
          end, s')
    /\ calls s' = S (calls s)
    /\ trace s' = (trace s ++ pass_events w s url headers attempt m)%list.
Proof.
  destruct (attempt_body_run Hvalid url headers attempt s)
    as [lp [n [d Hbody]]].
  unfold try_except, pass_events. rewrite Hbody.
  destruct (outcome w (calls s)) as [r|e].
  - exists NoProxiesAvailable. eexists. repeat split.
  - match goal with
    | |- context [on_exception url attempt e w ?st] =>
        destruct (on_exception_run url attempt e w st) as [m Hh]
    end.
    exists m. eexists. rewrite Hh. cbn [calls trace]. repeat split.
    trace_eq.
Qed.

Lemma pass_events_client (s : hstate) (attempt : nat) (m : logmsg) :
  client_view (pass_events w s url headers attempt m)
  = match outcome w (calls s) with
    | Ok r => verbatim r
    | Raise e => (sent_before_failure w (calls s) ++ final_error attempt e)%list
    end.
Proof.
  unfold pass_events.
  rewrite client_view_cons, client_view_announce, client_view_cons.
  change (client_view [Request (route w s) url headers]) with (@nil event).
  cbn [app].
  destruct (outcome w (calls s)) as [r|e].
  - now rewrite client_view_app, client_view_verbatim,
      client_view_farewell, app_nil_r.
  - rewrite client_view_app, client_view_sent_before_failure. f_equal.
    unfold final_error. now destruct (last_attempt attempt).
Qed.

Lemma pass_events_requests (s : hstate) (attempt : nat) (m : logmsg) :
  requests (pass_events w s url headers attempt m)
  = [Request (route w s) url headers].
Proof.
  unfold pass_events.
  rewrite requests_cons, requests_announce, requests_cons.
  change (requests [Request (route w s) url headers])
    with [Request (route w s) url headers].
  cbn [app]. f_equal.
  destruct (outcome w (calls s)) as [r|e].
  - now rewrite requests_app, requests_verbatim, requests_farewell.
  - rewrite requests_app, requests_sent_before_failure.
    unfold final_error. now destruct (last_attempt attempt).
Qed.

Lemma pass_events_no_second_fallback (s : hstate) (attempt : nat)
      (m : logmsg) :
  existsb second_fallback (pass_events w s url headers attempt m) = false.
Proof.
  unfold pass_events. cbn [existsb].
  rewrite no_second_fallback_announce. cbn [second_fallback orb].
  destruct (outcome w (calls s)) as [r|e].
  - rewrite existsb_app, no_second_fallback_verbatim. cbn [existsb orb].
    now rewrite no_second_fallback_farewell.
  - rewrite existsb_app, no_second_fallback_sent_before_failure.
    unfold final_error. now destruct (last_attempt attempt).
Qed.

(** The whole loop returns, and what the client saw and how many
    calls were made can be read off the outcomes of the calls. *)
Lemma retry_loop_run (attempts : list nat) :
  forall s : hstate,
  exists s' : hstate,
    retry_loop url headers attempts w s = (Ok tt, s')
    /\ client_view (trace s')
       = (client_view (trace s) ++ client_of w (calls s) attempts)%list
    /\ calls s' = calls s + calls_of w (calls s) attempts
    /\ List.length (requests (trace s'))
       = List.length (requests (trace s)) + calls_of w (calls s) attempts
    /\ (existsb second_fallback (trace s) = false ->
        existsb second_fallback (trace s') = false).
Proof.
  induction attempts as [|attempt rest IH]; intros s.
  - exists s. simpl. unfold ret.
    rewrite app_nil_r, !Nat.add_0_r. auto.
  - destruct (pass_run attempt s) as [m [s1 [Hpass [Hc Ht]]]].
    simpl retry_loop. unfold bind at 1. rewrite Hpass.
    pose proof (pass_events_client s attempt m) as Hcl.
    pose proof (pass_events_requests s attempt m) as Hrq.
    pose proof (pass_events_no_second_fallback s attempt m) as Hsf.
    simpl client_of. simpl calls_of.
    destruct (outcome w (calls s)) as [r|e].
    + exists s1. unfold ret. rewrite Ht, Hc.
      rewrite client_view_app, requests_app, length_app, existsb_app.
      rewrite Hcl, Hrq, Hsf. simpl.
      repeat split; try lia.
      intros ->. reflexivity.
    + unfold bind at 1. unfold emit at 1. cbv beta iota.
      match goal with
      | |- context [retry_loop url headers rest w ?st] =>
          destruct (IH st) as [s' [Hrun [Hv [Hn [Hr Hs]]]]]
      end.
      exists s'. rewrite Hrun.
      cbn [calls trace] in Hv, Hn, Hr, Hs.
      rewrite Hc in Hv, Hn, Hr. rewrite Ht in Hv, Hr, Hs.
      rewrite !client_view_app in Hv.
      rewrite !requests_app, !length_app in Hr.
      rewrite !existsb_app in Hs.
      rewrite Hcl in Hv. rewrite Hrq in Hr. rewrite Hsf in Hs.
      simpl in Hv, Hr, Hs. rewrite app_nil_r in Hv.
      split; [reflexivity|].
      split; [rewrite Hv, <- !app_assoc; reflexivity|].
      split; [lia|].
      split; [lia|].
      intros H0. apply Hs. rewrite H0. reflexivity.
Qed.

Lemma forward_request_run :
  exists s' : hstate,
    forward_request url headers w h0 = (Ok tt, s')
    /\ client_view (trace s') = client_of w 0 (seq 0 max_retries)
    /\ calls s' = calls_of w 0 (seq 0 max_retries)
    /\ List.length (requests (trace s')) = calls_of w 0 (seq 0 max_retries)
    /\ existsb second_fallback (trace s') = false.
Proof.
  destruct (retry_loop_run (seq 0 max_retries) h0)
    as [s' [Hrun [Hv [Hn [Hr Hs]]]]].
  exists s'. unfold forward_request. simpl in *.
  repeat split; auto.
Qed.
End Loop.

(* ------------------------------------------------------------------ *)
(** ** The pool lifecycle: C2, C3, C7, C8, C9 *)
(* ------------------------------------------------------------------ *)

(** C7: [fetch_proxies_from_api] (ProxySource.fetch) never raises.  It
    returns the empty list when the connection fails, when the listing
    service answers a status outside 200..299, and when reading or
    decoding the body fails; on a 2xx answer it returns, in order and
    prefixed with "http://", exactly the trimmed lines of the trimmed
    body that are non-empty and contain a colon. *)
Theorem fetch_proxies_from_api_contract (w : refresh_world) (s : rstate) :
  exists (proxies : list string) (s' : rstate),
    fetch_proxies_from_api w s = (Ok proxies, s')
    /\ (forall e, listing w = Failure e -> proxies = [])
    /\ (forall r, listing w = Reply r ->
                  (status r < 200 \/ 300 <= status r)%Z -> proxies = [])
    /\ (forall e, listing_text w = Raise e -> proxies = [])
    /\ (forall r raw,
           listing w = Reply r -> (200 <= status r < 300)%Z ->
           listing_text w = Ok raw ->
           proxies
           = map (String.append "http://")
                 (filter (fun line => Py.truthy line && Py.contains ":" line)
                         (map Py.strip
                              (Py.split Py.newline (Py.strip raw))))).
Proof.
  destruct (fetch_proxies_from_api_run w s) as [s' [Hrun _]].
  exists (candidates w), s'. split; [exact Hrun|].
  unfold candidates, urlopen.
  repeat split.
  - intros e ->. reflexivity.
  - intros r -> Hout.
    replace ((200 <=? status r)%Z && (status r <? 300)%Z) with false;
      [reflexivity|].
    symmetry. apply andb_false_iff.
    destruct Hout; [left; apply Z.leb_gt | right; apply Z.ltb_ge]; lia.
  - intros e ->. now destruct (listing w) as [r|e'];
      [destruct ((200 <=? status r)%Z && (status r <? 300)%Z)|].
  - intros r raw -> [Hlo Hhi] ->.
    replace ((200 <=? status r)%Z && (status r <? 300)%Z) with true.
    + now rewrite parse_lines_spec.
    + symmetry. apply andb_true_iff.
      split; [apply Z.leb_le | apply Z.ltb_lt]; lia.
Qed.

(** C8: [validate_proxy] never raises, and it returns [True] exactly
    when the probe came back with status 200; a failed connection, a
    timeout, a status raised as an error and a 2xx status other than
    200 all give [False].  The pool is not touched. *)
Theorem validate_proxy_contract (proxy test_url : string)
        (w : refresh_world) (s : rstate) :
  exists (good : bool) (s' : rstate),
    validate_proxy proxy test_url w s = (Ok good, s')
    /\ (good = true <->
        exists r, probe w (probes s) = Reply r /\ status r = 200%Z)
    /\ PROXY_POOL s' = PROXY_POOL s.
Proof.
  destruct (validate_proxy_run proxy test_url w s) as [s' [Hrun [Hp _]]].
  eexists. exists s'. split; [exact Hrun|]. split; [|exact Hp].
  unfold urlopen.
  destruct (probe w (probes s)) as [r|e].
  - destruct ((200 <=? status r)%Z && (status r <? 300)%Z) eqn:H2xx.
    + split.
      * intros H200. exists r. split; [reflexivity|]. now apply Z.eqb_eq.
      * intros [r' [E H200]]. injection E as <-. now apply Z.eqb_eq.
    + split; [discriminate|].
      intros [r' [E H200]]. injection E as <-.
      rewrite H200 in H2xx. discriminate.
  - split; [discriminate|]. intros [r [E _]]. discriminate.
Qed.

(** C2: when the fetch returns a non-empty candidate list and the
    validation run over it returns no working proxy, the refresh
    replaces the pool with the first 50 candidates (all of them when
    there are fewer), unvalidated; the pool is neither kept nor
    emptied. *)
Theorem update_proxy_pool_untested_fallback
        (w : refresh_world) (s s1 s2 : rstate) (new_proxies : list string) :
  fetch_proxies_from_api w s = (Ok new_proxies, s1) ->
  new_proxies <> [] ->
  get_working_proxies new_proxies 100 w s1 = (Ok [], s2) ->
  exists s' : rstate,
    update_proxy_pool w s = (Ok tt, s')
    /\ PROXY_POOL s' = firstn 50 new_proxies
    /\ size (PROXY_POOL s') = Nat.min 50 (List.length new_proxies)
    /\ PROXY_POOL s' <> [].
Proof.
  intros Hfetch Hne Hnone.
  unfold update_proxy_pool. unfold bind at 1. rewrite Hfetch.
  destruct new_proxies as [|c cs]; [congruence|].
  cbv beta iota delta [nonempty].
  unfold bind at 1. rewrite Hnone.
  cbv beta iota.
  unfold bind, set_PROXY_POOL, remit. cbn [PROXY_POOL probes rtrace].
  eexists. split; [reflexivity|]. cbn [PROXY_POOL].
  split; [reflexivity|].
  split; [apply length_firstn | simpl; discriminate].
Qed.

(** C3: when the fetch returns the empty list, the refresh leaves an
    already populated pool as it was: same contents, same size. *)
Theorem update_proxy_pool_keeps_stale_pool
        (w : refresh_world) (s s1 : rstate) :
  PROXY_POOL s <> [] ->
  fetch_proxies_from_api w s = (Ok [], s1) ->
  exists s' : rstate,
    update_proxy_pool w s = (Ok tt, s')
    /\ PROXY_POOL s' = PROXY_POOL s
    /\ size (PROXY_POOL s') = size (PROXY_POOL s).
Proof.
  intros _ Hfetch.
  destruct (fetch_proxies_from_api_run w s) as [s1' [Hrun [Hp _]]].
  rewrite Hfetch in Hrun. injection Hrun as _ <-.
  unfold update_proxy_pool. unfold bind at 1. rewrite Hfetch.
  cbv beta iota delta [nonempty]. unfold remit.
  eexists. split; [reflexivity|]. cbn [PROXY_POOL].
  rewrite Hp. split; reflexivity.
Qed.

(** The validation run returns no proxy exactly when none of the probes
    it spends, one per candidate and at most [max_to_test], passes. *)
Lemma get_working_proxies_none_iff (proxy_list : list string)
      (max_to_test : nat) (w : refresh_world) (s : rstate) :
  fst (get_working_proxies proxy_list max_to_test w s) = Ok []
  <-> forall i, i < Nat.min max_to_test (List.length proxy_list) ->
                passes w (probes s + i) = false.
Proof.
  destruct (get_working_proxies_run proxy_list max_to_test w s)
    as [s' [Hrun _]].
  rewrite Hrun. simpl. split.
  - intros H. injection H as H. now apply kept_some.
  - intros H. now rewrite kept_none.
Qed.

(** The validated pool is drawn from the first [max_to_test]
    candidates. *)
Lemma get_working_proxies_sample (proxy_list : list string)
      (max_to_test : nat) (w : refresh_world) (s : rstate) :
  exists (found : list string) (s' : rstate),
    get_working_proxies proxy_list max_to_test w s = (Ok found, s')
    /\ forall p, In p found -> In p (firstn max_to_test proxy_list).
Proof.
  destruct (get_working_proxies_run proxy_list max_to_test w s)
    as [s' [Hrun _]].
  eexists. exists s'. split; [exact Hrun|].
  intros p. apply kept_firstn.
Qed.

Lemma fetch_proxies_run (w : refresh_world) (s : rstate) :
  exists (proxies : list string) (s' : rstate),
    fetch_proxies w s = (Ok proxies, s')
    /\ PROXY_POOL s' = PROXY_POOL s
    /\ Forall http_prefixed proxies.
Proof.
  unfold fetch_proxies, try_except, bind, listing_open, read_decode,
    remit, ret.
  simpl.
  destruct (urlopen (listing w)) as [r|e]; simpl.
  - destruct (listing_text w) as [raw|e]; simpl.
    + do 2 eexists. split; [reflexivity|]. split; [reflexivity|].
      apply parse_lines_prefixed.
    + do 2 eexists. split; [reflexivity|]. split; [reflexivity|constructor].
  - do 2 eexists. split; [reflexivity|]. split; [reflexivity|constructor].
Qed.

Lemma initialize_proxies_prefixed (w : refresh_world) (s : rstate) :
  Forall http_prefixed (PROXY_POOL s) ->
  exists s' : rstate,
    initialize_proxies w s = (Ok tt, s')
    /\ Forall http_prefixed (PROXY_POOL s').
Proof.
  intros HP.
  destruct (fetch_proxies_run w s) as [proxies [s1 [Hrun [Hp Hpre]]]].
  unfold initialize_proxies, bind. rewrite Hrun.
  destruct proxies as [|p ps]; simpl.
  - unfold ret. eexists. split; [reflexivity|]. now rewrite Hp.
  - unfold set_PROXY_POOL. eexists. split; [reflexivity|]. exact Hpre.
Qed.

(** C9: every entry the proxy pool ever holds begins with "http://".
    The candidates of a fetch all do; a refresh cycle of [app.py] keeps
    the property, so every pool reachable from the empty start pool has
    it; and so has the pool of [working_https_proxy.py] after
    [initialize_proxies]. *)
Theorem pool_entries_begin_with_http :
  (forall (w : refresh_world) (s : rstate),
      exists proxies s',
        fetch_proxies_from_api w s = (Ok proxies, s')
        /\ Forall http_prefixed proxies)
  /\ (forall (w : refresh_world) (s : rstate),
         Forall http_prefixed (PROXY_POOL s) ->
         exists s',
           update_proxy_pool w s = (Ok tt, s')
           /\ Forall http_prefixed (PROXY_POOL s'))
  /\ (forall pool p,
         reachable pool -> In p pool ->
         exists rest, p = "http://" ++ rest)
  /\ (forall (w : refresh_world),
         exists s',
           initialize_proxies w r0 = (Ok tt, s')
           /\ Forall http_prefixed (PROXY_POOL s')).
Proof.
  repeat split.
  - intros w s.
    destruct (fetch_proxies_from_api_run w s) as [s' [Hrun _]].
    exists (candidates w), s'. split; [exact Hrun|].
    apply candidates_prefixed.
  - intros w s HP.
    destruct (update_proxy_pool_run w s) as [s' [Hrun Hpool]].
    exists s'. split; [exact Hrun|].
    apply (@refresh_step_prefixed (PROXY_POOL s)); [|exact HP].
    exists w, s, s'. auto.
  - intros pool p Hr Hin.
    pose proof (reachable_prefixed Hr) as HP.
    rewrite Forall_forall in HP. specialize (HP p Hin).
    exact (prefix_split "http://" p HP).
  - intros w. apply initialize_proxies_prefixed. constructor.
Qed.

(* ------------------------------------------------------------------ *)
(** ** Sample requests *)
(* ------------------------------------------------------------------ *)

Lemma sample_pool_reachable : reachable sample_pool.
Proof.
  change sample_pool
    with (PROXY_POOL (snd (update_proxy_pool w_all_probes_fail r0))).
  apply refreshed_is_reachable. constructor.
Qed.


Example third_time_lucky_client :
  client_view
    (trace (snd (forward_request "http://httpbin.org/ip" sample_headers
                                 w_third_time_lucky h0)))
  = verbatim (ok_reply "1.2.3.4").
Proof. reflexivity. Qed.

Example third_time_lucky_requests :
  requests
    (trace (snd (forward_request "http://httpbin.org/ip" sample_headers
                                 w_third_time_lucky h0)))
  = [Request (Some "http://1.2.3.4:80") "http://httpbin.org/ip" sample_headers;
     Request (Some "http://5.6.7.8:3128") "http://httpbin.org/ip" sample_headers;
     Request (Some "http://1.2.3.4:80") "http://httpbin.org/ip" sample_headers].
Proof. reflexivity. Qed.

(** The head of the reply whose body read broke off stays with the
    client, and the reply of the second attempt follows it. *)
Example body_cut_short_client :
  client_view
    (trace (snd (forward_request "http://httpbin.org/ip" sample_headers
                                 w_body_cut_short h0)))
  = [SendResponse 200; SendHeader "Content-Type" "text/plain"; EndHeaders;
     SendResponse 200; SendHeader "Content-Type" "text/plain"; EndHeaders;
     WfileWrite "1.2.3.4"].
Proof. reflexivity. Qed.

Example body_cut_short_calls :
  calls (snd (forward_request "http://httpbin.org/ip" sample_headers
                              w_body_cut_short h0)) = 2.
Proof. reflexivity. Qed.

Example all_down_client :
  client_view
    (trace (snd (forward_request "http://httpbin.org/ip" sample_headers
                                 w_all_down h0)))
  = [SendError 504 "Request timed out"].
Proof. reflexivity. Qed.

(* ------------------------------------------------------------------ *)
(** ** Proxy choice: C6, C10 *)
(* ------------------------------------------------------------------ *)

(** C6: [get_random_proxy] (pick) returns [None] exactly when the pool
    it reads is empty, and on a non-empty pool it returns a member of
    the pool as it stands when the choice is made.  The pool is read
    twice, for the emptiness test and for the choice; the premise says
    that it was not emptied in between, which holds when it was not
    reassigned and, refreshes never emptying a pool, under every
    history the refresher can produce. *)
Theorem get_random_proxy_contract (w : handler_world) (s : hstate) :
  (pool_read w (reads s) <> [] -> pool_read w (S (reads s)) <> []) ->
  exists (picked : option string) (s' : hstate),
    get_random_proxy w s = (Ok picked, s')
    /\ (picked = None <-> pool_read w (reads s) = [])
    /\ (pool_read w (reads s) <> [] ->
        exists p, picked = Some p /\ In p (pool_read w (S (reads s)))).
Proof.
  intros Hkeeps.
  unfold get_random_proxy, bind, read_PROXY_POOL, random_choice, ret.
  destruct (pool_read w (reads s)) as [|q qs] eqn:E.
  - do 2 eexists. split; [reflexivity|].
    split; [tauto | congruence].
  - cbn [nonempty negb reads draws calls local_proxy trace].
    assert (Hne : pool_read w (S (reads s)) <> [])
      by (apply Hkeeps; discriminate).
    pose proof (nth_mod_In (draw w (draws s)) Hne) as Hin.
    destruct (pool_read w (S (reads s))) as [|q' qs'] eqn:E'; [congruence|].
    do 2 eexists. split; [reflexivity|].
    split; [split; discriminate|].
    intros _. eexists. split; [reflexivity|]. exact Hin.
Qed.

(** C10: in [forward_request], an attempt that finds the pool non-empty
    makes its one outbound call through a proxy that is a member of the
    pool; it never logs the second direct-connection fallback and
    never connects directly.  An attempt connects directly only when it
    found the pool empty, and a whole request never reaches the second
    fallback. *)
Theorem second_direct_fallback_unreachable
        (w : handler_world) (url : string) (headers : list (string * string)) :
  valid_history w ->
  (forall (attempt : nat) (s : hstate),
      pool_read w (reads s) <> [] ->
      exists (p : string) (out : result flow) (s' : hstate)
             (new : list event),
        attempt_body url headers attempt w s = (out, s')
        /\ trace s' = (trace s ++ new)%list
        /\ In p (pool_read w (S (S (reads s))))
        /\ requests new = [Request (Some p) url headers]
        /\ existsb second_fallback new = false)
  /\ (forall (attempt : nat) (s : hstate),
         exists (out : result flow) (s' : hstate) (new : list event),
           attempt_body url headers attempt w s = (out, s')
           /\ trace s' = (trace s ++ new)%list
           /\ (In (Request None url headers) new ->
               pool_read w (reads s) = []))
  /\ existsb second_fallback
             (trace (snd (forward_request url headers w h0))) = false.
Proof.
  intros Hvalid. repeat split.
  - intros attempt s Hne.
    destruct (attempt_body_run Hvalid url headers attempt s)
      as [lp [n [d Hbody]]].
    assert (Hroute : route w s = Some (chosen w s)).
    { unfold route. destruct (pool_read w (reads s)); [congruence|reflexivity]. }
    rewrite Hroute in Hbody.
    exists (chosen w s).
    destruct (outcome w (calls s)) as [r|e];
      do 3 eexists; (split; [exact Hbody|]); cbn [trace];
      (split; [reflexivity|]);
      (split; [now apply chosen_In|]).
    + split.
      * apply requests_of_attempt.
        now rewrite requests_app, requests_verbatim.
      * apply no_second_fallback_in_attempt.
        now rewrite existsb_app, no_second_fallback_verbatim.
    + split.
      * apply requests_of_attempt. apply requests_sent_before_failure.
      * apply no_second_fallback_in_attempt.
        apply no_second_fallback_sent_before_failure.
  - intros attempt s.
    destruct (attempt_body_run Hvalid url headers attempt s)
      as [lp [n [d Hbody]]].
    assert (Hdirect : forall t,
               requests t = [] ->
               In (Request None url headers)
                  (announce (route w s) attempt url
                   :: Request (route w s) url headers :: t) ->
               pool_read w (reads s) = []).
    { intros t Ht [Ha|[Hr|Hin]].
      - destruct (route w s); discriminate.
      - unfold route in Hr.
        destruct (pool_read w (reads s)); [reflexivity|discriminate].
      - assert (Hin' : In (Request None url headers) (requests t)).
        { apply filter_In. split; [exact Hin|reflexivity]. }
        rewrite Ht in Hin'. destruct Hin'. }
    destruct (outcome w (calls s)) as [r|e];
      do 3 eexists; (split; [exact Hbody|]); cbn [trace];
      (split; [reflexivity|]); apply Hdirect.
    + now rewrite requests_app, requests_verbatim, requests_farewell.
    + apply requests_sent_before_failure.
  - destruct (forward_request_run Hvalid url headers)
      as [s' [Hrun [_ [_ [_ Hs]]]]].
    now rewrite Hrun.
Qed.

(* ------------------------------------------------------------------ *)
(** ** The forwarding loop: C1, C4 *)
(* ------------------------------------------------------------------ *)

(** C4 as stated fails for a connection error that urllib does not
    wrap in [URLError]: when the upstream closes the connection while
    the reply is awaited, on all three attempts, the client is sent
    500, not 504. *)
Lemma forward_request_connection_reset_gets_500 :
  upstream w_connection_reset 2
  = Failure (ConnectionResetError
               "Remote end closed connection without response")
  /\ (let s' := snd (forward_request "http://httpbin.org/ip" sample_headers
                                     w_connection_reset h0) in
      calls s' = 3
      /\ client_view (trace s')
         = [SendError 500 "Remote end closed connection without response"]
      /\ client_view (trace s')
         <> [SendError 504 "Remote end closed connection without response"]).
Proof.
  split; [reflexivity|].
  split; [reflexivity|]. split; [reflexivity|].
  vm_compute. discriminate.
Qed.

(** C4, amended: when each of the three attempts of a request fails, the
    attempt raising from its outbound call, [forward_request] returns
    after exactly three outbound calls and the client is sent exactly
    one error, chosen by the class of the last exception: 504 for a
    [URLError] or a [TimeoutError], the upstream's status for an
    [HTTPError], 500 for every other exception, a connection error that
    is no [URLError] among them. *)
Theorem forward_request_exhausts_three_attempts
        (w : handler_world) (url : string) (headers : list (string * string))
        (e0 e1 e2 : exn) :
  valid_history w ->
  urlopen (upstream w 0) = Raise e0 ->
  urlopen (upstream w 1) = Raise e1 ->
  urlopen (upstream w 2) = Raise e2 ->
  exists s' : hstate,
    forward_request url headers w h0 = (Ok tt, s')
    /\ calls s' = 3
    /\ List.length (requests (trace s')) = 3
    /\ client_view (trace s')
       = [SendError (terminal_code e2) (terminal_message e2)].
Proof.
  intros Hvalid H0 H1 H2.
  destruct (forward_request_run Hvalid url headers)
    as [s' [Hrun [Hv [Hn [Hr _]]]]].
  exists s'. split; [exact Hrun|].
  destruct (outcome_of_failed_call _ _ H0) as [O0 S0].
  destruct (outcome_of_failed_call _ _ H1) as [O1 S1].
  destruct (outcome_of_failed_call _ _ H2) as [O2 S2].
  simpl in Hv, Hn, Hr. rewrite O0, O1, O2 in *.
  rewrite S0, S1, S2 in Hv.
  auto.
Qed.




(* ------------------------------------------------------------------ *)
(** ** URL normalisation: C5 *)
(* ------------------------------------------------------------------ *)

Lemma prefix_app_r (p a b : string) :
  String.prefix p a = true -> String.prefix p (a ++ b) = true.
Proof.
  revert a. induction p as [|c p IH]; intros a H.
  - destruct (a ++ b); reflexivity.
  - destruct a as [|d a]; [discriminate|]. simpl in *.
    destruct (ascii_dec c d); [now apply IH | discriminate].
Qed.

Lemma contains_app_r (p a b : string) :
  Py.contains p a = true -> Py.contains p (a ++ b) = true.
Proof.
  induction a as [|d a IH]; intros H.
  - simpl in H. rewrite orb_false_r in H.
    destruct p; [|discriminate].
    destruct ("" ++ b); reflexivity.
  - cbn [Py.contains] in H. apply orb_true_iff in H.
    change (String d a ++ b) with (String d (a ++ b)).
    cbn [Py.contains]. apply orb_true_iff.
    destruct H as [H|H].
    + left. exact (prefix_app_r p (String d a) b H).
    + right. now apply IH.
Qed.

Lemma lower_app (a b : string) :
  Py.lower (a ++ b) = Py.lower a ++ Py.lower b.
Proof. induction a as [|c a IH]; simpl; [reflexivity | now rewrite IH]. Qed.

Lemma host_of_is_prefix (url : string) :
  exists rest, url = host_of url ++ rest.
Proof.
  induction url as [|c url [rest IH]]; simpl.
  - exists "". reflexivity.
  - destruct (Ascii.eqb c "/").
    + exists (String c url). reflexivity.
    + exists rest. simpl. now rewrite <- IH.
Qed.

(** A site named by the host is named by the URL. *)
Lemma host_matches_mentions (url : string) :
  host_matches url = true -> url_mentions_site url = true.
Proof.
  unfold host_matches, url_mentions_site.
  intros H. apply existsb_exists in H. destruct H as [site [Hin Hc]].
  apply existsb_exists. exists site. split; [exact Hin|].
  destruct (host_of_is_prefix url) as [rest E].
  rewrite E, lower_app. now apply contains_app_r.
Qed.

(** C5 as stated fails: the heuristic looks at the whole URL, not at
    the host.  A URL whose host names none of the sites but whose path
    does gets "https://". *)
Lemma normalize_url_matches_beyond_host :
  lacks_scheme "example.com/github" = true
  /\ host_of "example.com/github" = "example.com"
  /\ host_matches "example.com/github" = false
  /\ normalize_url "/example.com/github" = "https://example.com/github"
  /\ normalize_url "/example.com/github" <> "http://example.com/github".
Proof. repeat split; vm_compute; discriminate. Qed.

(** C5, amended: for a target that starts with neither "http://" nor
    "https://", [normalize_url] prepends "https://" when the lower-cased
    target, host and path together, contains "google", "github",
    "facebook" or "twitter", and "http://" otherwise; a host that names
    one of the sites is one such case.  So example.com becomes
    http://example.com and github.com/foo becomes
    https://github.com/foo.  [validate_url] of [app.py] has no
    heuristic: it prepends "http://" whenever [urlparse] finds no
    scheme. *)
Theorem normalize_url_heuristic :
  (forall url,
      lacks_scheme url = true ->
      normalize_url (String "/" url)
      = if url_mentions_site url then "https://" ++ url
        else "http://" ++ url)
  /\ (forall url,
         lacks_scheme url = true -> host_matches url = true ->
         normalize_url (String "/" url) = "https://" ++ url)
  /\ normalize_url "/example.com" = "http://example.com"
  /\ normalize_url "/github.com/foo" = "https://github.com/foo"
  /\ (forall (urlparse_scheme : string -> result string) (url : string),
         urlparse_scheme url = Ok "" ->
         validate_url urlparse_scheme url = Some ("http://" ++ url)).
Proof.
  assert (Hnorm : forall url,
             lacks_scheme url = true ->
             normalize_url (String "/" url)
             = if url_mentions_site url then "https://" ++ url
               else "http://" ++ url).
  { intros url Hl. unfold normalize_url.
    replace (Py.startswith (String "/" url) "/") with true
      by (unfold Py.startswith; simpl; now destruct url).
    cbn [Py.drop1]. fold (lacks_scheme url). rewrite Hl.
    reflexivity. }
  repeat split.
  - exact Hnorm.
  - intros url Hl Hm. rewrite (Hnorm url Hl).
    now rewrite (host_matches_mentions url Hm).
  - intros parse url Hs. unfold validate_url. now rewrite Hs.
Qed.

(* ------------------------------------------------------------------ *)
(** ** The theorems at the sample worlds *)
(* ------------------------------------------------------------------ *)


Lemma w_all_down_valid : valid_history w_all_down.
Proof. apply constant_history_valid. exact sample_pool_reachable. Qed.



Lemma update_proxy_pool_untested_fallback_sample :
  exists s' : rstate,
    update_proxy_pool w_all_probes_fail r0 = (Ok tt, s')
    /\ PROXY_POOL s' = firstn 50 sample_pool
    /\ size (PROXY_POOL s') = Nat.min 50 (List.length sample_pool)
    /\ PROXY_POOL s' <> [].
Proof.
  refine (update_proxy_pool_untested_fallback
            w_all_probes_fail r0
            (s1 := snd (fetch_proxies_from_api w_all_probes_fail r0))
            (s2 := snd (get_working_proxies
                          sample_pool 100 w_all_probes_fail
                          (snd (fetch_proxies_from_api w_all_probes_fail r0))))
            (new_proxies := sample_pool) _ _ _).
  - reflexivity.
  - discriminate.
  - reflexivity.
Defined.

Lemma update_proxy_pool_keeps_stale_pool_sample :
  exists s' : rstate,
    update_proxy_pool w_listing_503 (mkRState sample_pool 0 []) = (Ok tt, s')
    /\ PROXY_POOL s' = sample_pool
    /\ size (PROXY_POOL s') = 2.
Proof.
  refine (update_proxy_pool_keeps_stale_pool
            w_listing_503 (mkRState sample_pool 0 [])
            (s1 := snd (fetch_proxies_from_api w_listing_503
                                               (mkRState sample_pool 0 [])))
            _ _).
  - discriminate.
  - reflexivity.
Defined.

Lemma forward_request_exhausts_three_attempts_sample :
  valid_history w_all_down
  /\ exists s' : hstate,
      forward_request "http://httpbin.org/ip" sample_headers w_all_down h0
      = (Ok tt, s')
      /\ calls s' = 3
      /\ List.length (requests (trace s')) = 3
      /\ client_view (trace s') = [SendError 504 "Request timed out"].
Proof.
  split; [exact w_all_down_valid|].
  refine (forward_request_exhausts_three_attempts
            "http://httpbin.org/ip" sample_headers
            (e0 := URLError "Connection refused")
            (e1 := URLError "Connection refused")
            (e2 := TimeoutError "timed out")
            w_all_down_valid _ _ _); reflexivity.
Defined.

Lemma get_random_proxy_contract_sample :
  sample_pool <> []
  /\ exists (picked : option string) (s' : hstate),
      get_random_proxy w_all_down h0 = (Ok picked, s')
      /\ (picked = None <-> sample_pool = [])
      /\ (sample_pool <> [] ->
          exists p, picked = Some p /\ In p sample_pool).
Proof.
  split; [discriminate|].
  refine (get_random_proxy_contract w_all_down h0 _).
  intros _. discriminate.
Defined.

Lemma second_direct_fallback_unreachable_sample :
  valid_history w_all_down
  /\ existsb second_fallback
             (trace (snd (forward_request "http://httpbin.org/ip"
                                          sample_headers w_all_down h0)))
     = false.
Proof.
  split; [exact w_all_down_valid|].
  exact (proj2 (proj2 (second_direct_fallback_unreachable
                         "http://httpbin.org/ip" sample_headers
                         w_all_down_valid))).
Defined.

Lemma normalize_url_heuristic_sample :
  normalize_url "/www.google.com/search" = "https://www.google.com/search"
  /\ validate_url Urlsplit.scheme "github.com/foo"
     = Some "http://github.com/foo".
Proof.
  destruct normalize_url_heuristic as [_ [Hhost [_ [_ Hplain]]]].
  split.
  - apply (Hhost "www.google.com/search"); reflexivity.
  - apply (Hplain Urlsplit.scheme "github.com/foo"). reflexivity.
Defined.

Lemma pool_entries_begin_with_http_sample :
  reachable sample_pool
  /\ exists rest, "http://5.6.7.8:3128" = "http://" ++ rest.
Proof.
  split; [exact sample_pool_reachable|].
  apply (proj1 (proj2 (proj2 pool_entries_begin_with_http)) sample_pool).
  - exact sample_pool_reachable.
  - simpl. auto.
Defined.

(* ------------------------------------------------------------------ *)
(** ** More on the refresher *)
(* ------------------------------------------------------------------ *)

Lemma kept_validated (w : refresh_world) (l : list string) :
  forall k budget : nat, kept w k l budget = validated w k l budget.
Proof.
  unfold validated.
  induction l as [|p rest IH]; intros k budget; [reflexivity|].
  destruct budget as [|b]; [reflexivity|]. simpl.
  destruct (passes w k); simpl; now rewrite IH.
Qed.

Lemma kept_length (w : refresh_world) (l : list string) :
  forall k budget : nat,
    List.length (kept w k l budget) <= Nat.min budget (List.length l).
Proof.
  induction l as [|p rest IH]; intros k budget; simpl.
  - lia.
  - destruct budget as [|b]; [simpl; lia|].
    specialize (IH (S k) b).
    destruct (passes w k); simpl; lia.
Qed.

Lemma test_loop_spends (proxy_list : list string) :
  forall (max_to_test tested : nat) (working : list string)
         (w : refresh_world) (s : rstate),
    probes (snd (test_loop proxy_list max_to_test tested working w s))
    = probes s + Nat.min (max_to_test - tested) (List.length proxy_list).
Proof.
  induction proxy_list as [|proxy rest IH]; intros mx tested working w s.
  - simpl. rewrite Nat.min_0_r. lia.
  - simpl test_loop.
    destruct (mx <=? tested)%nat eqn:Hle.
    + apply Nat.leb_le in Hle.
      replace (mx - tested) with 0 by lia. simpl. lia.
    + apply Nat.leb_gt in Hle.
      replace (mx - tested) with (S (mx - S tested)) by lia.
      destruct (validate_proxy_run proxy default_test_url w s)
        as [s1 [Hv [_ Hn1]]].
      unfold bind at 1. rewrite Hv.
      destruct (match urlopen (probe w (probes s)) with
                | Ok r => (status r =? 200)%Z
                | Raise _ => false
                end);
        unfold bind, remit, ret; simpl;
        match goal with
        | |- context [test_loop rest mx (S tested) ?acc w ?st] =>
            rewrite (IH mx (S tested) acc w st)
        end; simpl; lia.
Qed.

(** X1: [get_working_proxies] returns exactly the proxies among the
    first [max_to_test] of its list whose probe passed, in list order,
    and spends one probe per tested proxy, never more than
    [max_to_test]. *)
Theorem get_working_proxies_keeps_the_passing
        (proxy_list : list string) (max_to_test : nat)
        (w : refresh_world) (s : rstate) :
  exists s' : rstate,
    get_working_proxies proxy_list max_to_test w s
    = (Ok (validated w (probes s) proxy_list max_to_test), s')
    /\ probes s' = probes s + Nat.min max_to_test (List.length proxy_list)
    /\ List.length (validated w (probes s) proxy_list max_to_test)
       <= Nat.min max_to_test (List.length proxy_list)
    /\ PROXY_POOL s' = PROXY_POOL s.
Proof.
  destruct (get_working_proxies_run proxy_list max_to_test w s)
    as [s' [Hrun Hp]].
  exists s'. rewrite <- kept_validated.
  split; [exact Hrun|].
  split; [|split; [apply kept_length | exact Hp]].
  replace s' with (snd (get_working_proxies proxy_list max_to_test w s))
    by now rewrite Hrun.
  unfold get_working_proxies, bind, remit, ret. simpl.
  match goal with
  | |- context [test_loop proxy_list max_to_test 0 [] w ?st] =>
      pose proof (test_loop_spends proxy_list max_to_test 0 [] w st) as Hsp;
      destruct (test_loop proxy_list max_to_test 0 [] w st) as [[r|e] s1]
  end; simpl in *; rewrite Hsp; now rewrite Nat.sub_0_r.
Qed.

(** X2: a refresh cycle always completes; it either keeps the pool or
    replaces it with entries of the first 100 fetched candidates, and
    it never empties a populated pool. *)
Theorem update_proxy_pool_keeps_or_replaces (w : refresh_world) (s : rstate) :
  exists (new_proxies : list string) (s1 s' : rstate),
    fetch_proxies_from_api w s = (Ok new_proxies, s1)
    /\ update_proxy_pool w s = (Ok tt, s')
    /\ (PROXY_POOL s' = PROXY_POOL s
        \/ (PROXY_POOL s' <> []
            /\ forall p, In p (PROXY_POOL s') ->
                         In p (firstn 100 new_proxies)))
    /\ (PROXY_POOL s <> [] -> PROXY_POOL s' <> []).
Proof.
  destruct (fetch_proxies_from_api_run w s) as [s1 [Hf _]].
  destruct (update_proxy_pool_run w s) as [s' [Hrun Hpool]].
  exists (candidates w), s1, s'.
  split; [exact Hf|]. split; [exact Hrun|].
  rewrite Hpool.
  destruct (candidates w) as [|c cs] eqn:Ec.
  - split; [now left | auto].
  - destruct (kept w (probes s) (c :: cs) 100) as [|k ks] eqn:Ek.
    + split; [|intros _; simpl; discriminate].
      right. split; [simpl; discriminate|].
      intros p Hp.
      rewrite <- (firstn_skipn 50 (firstn 100 (c :: cs))).
      apply in_or_app. left.
      rewrite firstn_firstn. exact Hp.
    + split; [|intros _; discriminate].
      right. split; [discriminate|].
      intros p Hp. rewrite <- Ek in Hp. eapply kept_firstn; eauto.
Qed.

Lemma refresh_step_bounded (p q : list string) :
  refresh_step p q -> List.length p <= 100 -> List.length q <= 100.
Proof.
  intros [w [s [s' [Hp [Hrun Hq]]]]] Hle.
  destruct (update_proxy_pool_run w s) as [s2 [Hrun2 Hpool]].
  rewrite Hrun in Hrun2. injection Hrun2 as <-.
  rewrite <- Hq, Hpool.
  destruct (candidates w) as [|c cs]; [now rewrite Hp|].
  pose proof (kept_length w (c :: cs) (probes s) 100) as Hk.
  destruct (kept w (probes s) (c :: cs) 100).
  - rewrite length_firstn. lia.
  - lia.
Qed.

(** X3: the pool never holds more than 100 proxies, whatever the
    listing service sends (it is asked for up to 500): a validated pool
    comes from at most 100 probes, an untested one is cut to 50. *)
Theorem reachable_pool_at_most_100 (pool : list string) :
  reachable pool -> size pool <= 100.
Proof.
  unfold reachable, refreshes, size.
  induction 1 as [|y z Hstep _ IH]; [simpl; lia|].
  eapply refresh_step_bounded; eauto.
Qed.

(** X4: when at least one of the probes spent on the first 100
    candidates passes, the refresh replaces the pool with exactly the
    candidates whose probe passed, in listing order; candidates that
    failed and candidates beyond the first 100 stay out. *)
Theorem update_proxy_pool_installs_validated
        (w : refresh_world) (s s1 : rstate) (new_proxies : list string)
        (i : nat) :
  fetch_proxies_from_api w s = (Ok new_proxies, s1) ->
  i < Nat.min 100 (List.length new_proxies) ->
  passes w (probes s1 + i) = true ->
  exists s' : rstate,
    update_proxy_pool w s = (Ok tt, s')
    /\ PROXY_POOL s' = validated w (probes s1) new_proxies 100
    /\ PROXY_POOL s' <> [].
Proof.
  intros Hf Hi Hpass.
  assert (Hne : kept w (probes s1) new_proxies 100 <> []).
  { intros Hnil.
    rewrite (@kept_some w new_proxies (probes s1) 100 Hnil i Hi) in Hpass.
    discriminate. }
  destruct (get_working_proxies_run new_proxies 100 w s1) as [s2 [Hg _]].
  unfold update_proxy_pool. unfold bind at 1. rewrite Hf.
  destruct new_proxies as [|c cs]; [simpl in Hi; lia|].
  cbv beta iota delta [nonempty].
  unfold bind at 1. rewrite Hg.
  rewrite <- kept_validated.
  destruct (kept w (probes s1) (c :: cs) 100) as [|k ks]; [congruence|].
  unfold bind, set_PROXY_POOL, remit. cbn [PROXY_POOL probes rtrace].
  eexists. split; [reflexivity|]. cbn [PROXY_POOL].
  split; [reflexivity | discriminate].
Qed.

(* ------------------------------------------------------------------ *)
(** ** The shape of a fetched proxy *)
(* ------------------------------------------------------------------ *)

Lemma lstrip_idempotent (s : string) : Py.lstrip (Py.lstrip s) = Py.lstrip s.
Proof.
  induction s as [|c r IH]; [reflexivity|]. simpl.
  destruct (Py.isspace c) eqn:Hc; [exact IH|].
  simpl. now rewrite Hc.
Qed.

Lemma rstrip_idempotent (s : string) : Py.rstrip (Py.rstrip s) = Py.rstrip s.
Proof.
  induction s as [|c r IH]; [reflexivity|]. simpl.
  destruct (Py.isspace c && negb (Py.truthy (Py.rstrip r))) eqn:Hc;
    [reflexivity|].
  simpl. now rewrite IH, Hc.
Qed.

Lemma lstrip_length (s : string) :
  String.length (Py.lstrip s) <= String.length s.
Proof.
  induction s as [|c r IH]; simpl; [lia|].
  destruct (Py.isspace c); simpl; lia.
Qed.

(** Trimming on the right does not uncover white space on the left. *)
Lemma lstrip_rstrip (s : string) :
  Py.lstrip s = s -> Py.lstrip (Py.rstrip s) = Py.rstrip s.
Proof.
  destruct s as [|c r]; [reflexivity|]. simpl.
  destruct (Py.isspace c) eqn:Hc.
  - intros H. pose proof (lstrip_length r) as Hl.
    rewrite H in Hl. simpl in Hl. lia.
  - intros _. simpl. now rewrite Hc.
Qed.

Lemma strip_idempotent (s : string) : Py.strip (Py.strip s) = Py.strip s.
Proof.
  unfold Py.strip.
  rewrite (@lstrip_rstrip (Py.lstrip s) (lstrip_idempotent s)).
  apply rstrip_idempotent.
Qed.

Lemma has_char_lstrip (c : ascii) (s : string) :
  has_char c s = false -> has_char c (Py.lstrip s) = false.
Proof.
  induction s as [|d r IH]; [reflexivity|]. simpl.
  intros H. apply orb_false_iff in H. destruct H as [Hd Hr].
  destruct (Py.isspace d); [now apply IH|]. simpl. now rewrite Hd, Hr.
Qed.

Lemma has_char_rstrip (c : ascii) (s : string) :
  has_char c s = false -> has_char c (Py.rstrip s) = false.
Proof.
  induction s as [|d r IH]; [reflexivity|]. simpl.
  intros H. apply orb_false_iff in H. destruct H as [Hd Hr].
  destruct (Py.isspace d && negb (Py.truthy (Py.rstrip r))); [reflexivity|].
  simpl. now rewrite Hd, IH.
Qed.

(** No piece of a split holds the separator. *)
Lemma split_pieces_clean (sep : ascii) (s : string) :
  Forall (fun piece => has_char sep piece = false) (Py.split sep s).
Proof.
  induction s as [|c r IH]; simpl.
  - repeat constructor.
  - destruct (Ascii.eqb c sep) eqn:Hc.
    + constructor; [reflexivity | exact IH].
    + destruct (Py.split sep r) as [|piece pieces].
      * repeat constructor. simpl. now rewrite Hc.
      * inversion IH as [|? ? Hpiece Hrest]; subst.
        constructor; [simpl; now rewrite Hc | exact Hrest].
Qed.

(** The listing is cut at line feeds only: a carriage return inside a
    line stays in the proxy. *)
Example carriage_return_stays :
  parse_lines
    (Py.split Py.newline
       (Py.strip ("1.2.3.4:80" ++ String (ascii_of_nat 13) "5.6.7.8:81")))
    []
  = ["http://1.2.3.4:80" ++ String (ascii_of_nat 13) "5.6.7.8:81"].
Proof. reflexivity. Qed.

(** X5: every proxy [fetch_proxies_from_api] returns is "http://"
    followed by a text that is non-empty, contains a colon, has no
    white space at either end and holds no line feed, the one character
    the listing is cut at; blank lines and lines without a colon never
    become proxies. *)
Theorem fetched_proxy_shape (w : refresh_world) (s s' : rstate)
        (proxies : list string) (p : string) :
  fetch_proxies_from_api w s = (Ok proxies, s') ->
  In p proxies ->
  exists line : string,
    p = "http://" ++ line
    /\ Py.truthy line = true
    /\ Py.contains ":" line = true
    /\ Py.strip line = line
    /\ has_char Py.newline line = false.
Proof.
  intros Hf Hin.
  destruct (fetch_proxies_from_api_run w s) as [s1 [Hrun _]].
  rewrite Hf in Hrun. injection Hrun as -> _.
  unfold candidates in Hin.
  destruct (urlopen (listing w)); [|destruct Hin].
  destruct (listing_text w) as [raw|]; [|destruct Hin].
  rewrite parse_lines_spec in Hin. simpl in Hin.
  apply in_map_iff in Hin. destruct Hin as [line [<- Hline]].
  apply filter_In in Hline. destruct Hline as [Hmem Hacc].
  apply in_map_iff in Hmem. destruct Hmem as [piece [<- Hpiece]].
  unfold accepted in Hacc. apply andb_true_iff in Hacc.
  destruct Hacc as [Ht Hc].
  exists (Py.strip piece).
  split; [reflexivity|]. split; [exact Ht|]. split; [exact Hc|].
  split; [apply strip_idempotent|].
  pose proof (split_pieces_clean Py.newline (Py.strip raw)) as Hclean.
  rewrite Forall_forall in Hclean. specialize (Hclean piece Hpiece).
  unfold Py.strip at 1. now apply has_char_rstrip, has_char_lstrip.
Qed.

(* ------------------------------------------------------------------ *)
(** ** More on the forwarding loop *)
(* ------------------------------------------------------------------ *)

Lemma urlopen_ok_2xx (x : wire) (r : response) :
  urlopen x = Ok r -> x = Reply r /\ (200 <= status r < 300)%Z.
Proof.
  unfold urlopen. destruct x as [r'|e]; [|discriminate].
  destruct ((200 <=? status r')%Z && (status r' <? 300)%Z) eqn:H2;
    [|discriminate].
  intros H. injection H as <-.
  apply andb_true_iff in H2. destruct H2 as [Hlo Hhi].
  apply Z.leb_le in Hlo. apply Z.ltb_lt in Hhi. auto.
Qed.





Section LoopMore.
Variable w : handler_world.
Hypothesis Hvalid : valid_history w.
Variables (url : string) (headers : list (string * string)).

(** One turn of the loop: stop when the call returned and the body was
    read, else pause and go on. *)
Lemma retry_loop_turn (attempt : nat) (rest : list nat) (s : hstate) :
  exists (m : logmsg) (s1 : hstate),
    calls s1 = S (calls s)
    /\ trace s1 = (trace s ++ pass_events w s url headers attempt m)%list
    /\ retry_loop url headers (attempt :: rest) w s
       = match outcome w (calls s) with
         | Ok _ => (Ok tt, s1)
         | Raise _ =>
             retry_loop url headers rest w
               (mkHState (reads s1) (draws s1) (calls s1) (local_proxy s1)
                         (trace s1 ++ [Sleep 1000]))
         end.
Proof.
  destruct (pass_run Hvalid url headers attempt s)
    as [m [s1 [Hpass [Hc Ht]]]].
  exists m, s1. split; [exact Hc|]. split; [exact Ht|].
  simpl retry_loop. unfold bind at 1. rewrite Hpass.
  destruct (outcome w (calls s)); reflexivity.
Qed.


(** Every outbound call of the loop takes the route its attempt
    chose. *)
Lemma retry_loop_requests (P : event -> Prop) :
  (forall s, P (Request (route w s) url headers)) ->
  forall (attempts : list nat) (s : hstate),
    Forall P (requests (trace s)) ->
    Forall P (requests (trace (snd (retry_loop url headers attempts w s)))).
Proof.
  intros HP.
  induction attempts as [|attempt rest IH]; intros s Hs; [exact Hs|].
  destruct (retry_loop_turn attempt rest s) as [m [s1 [Hc [Ht Hrun]]]].
  rewrite Hrun.
  assert (Hs1 : Forall P (requests (trace s1))).
  { rewrite Ht, requests_app, (pass_events_requests w url headers).
    apply Forall_app. split; [exact Hs|]. constructor; [apply HP|constructor]. }
  destruct (outcome w (calls s)) as [r|e].
  - exact Hs1.
  - apply IH. cbn [trace]. rewrite requests_app. simpl.
    now rewrite app_nil_r.
Qed.
End LoopMore.



Lemma all_equal_is_repeat {A} (x : A) (l : list A) :
  Forall (fun e => e = x) l -> l = repeat x (List.length l).
Proof.
  induction 1 as [|e t He _ IH]; [reflexivity|].
  simpl. now rewrite He, <- IH.
Qed.

(** X8: while the pool is empty every attempt of a request connects
    directly; no proxy is drawn. *)
Theorem forward_request_direct_on_empty_pool
        (w : handler_world) (url : string) (headers : list (string * string)) :
  (forall k, pool_read w k = []) ->
  exists s' : hstate,
    forward_request url headers w h0 = (Ok tt, s')
    /\ requests (trace s') = repeat (Request None url headers) (calls s').
Proof.
  intros Hempty.
  assert (Hvalid : valid_history w).
  { split; [rewrite Hempty; constructor|].
    intros k. rewrite !Hempty. constructor. }
  destruct (forward_request_run Hvalid url headers)
    as [s' [Hrun [_ [Hn [Hr _]]]]].
  exists s'. split; [exact Hrun|].
  assert (Hall : Forall (fun e => e = Request None url headers)
                        (requests (trace s'))).
  { unfold forward_request in Hrun.
    replace s' with (snd (retry_loop url headers (seq 0 max_retries) w h0))
      by now rewrite Hrun.
    apply (@retry_loop_requests w Hvalid url headers); [|constructor].
    intros s. unfold route. now rewrite Hempty. }
  rewrite Hn, <- Hr.
  apply all_equal_is_repeat. exact Hall.
Qed.

(** X9: once the pool is populated a request never connects directly:
    each of its attempts, also the attempts after a proxy failed, goes
    through a proxy that is a member of the pool and begins with
    "http://". *)
Theorem forward_request_never_direct_on_populated_pool
        (w : handler_world) (url : string) (headers : list (string * string)) :
  valid_history w ->
  pool_read w 0 <> [] ->
  exists s' : hstate,
    forward_request url headers w h0 = (Ok tt, s')
    /\ requests (trace s') <> []
    /\ Forall (fun e => exists p k,
                   e = Request (Some p) url headers
                   /\ In p (pool_read w k) /\ http_prefixed p)
              (requests (trace s')).
Proof.
  intros Hvalid Hne.
  assert (Hall : forall k, pool_read w k <> []).
  { induction k as [|k IH]; [exact Hne|].
    now apply (history_nonempty Hvalid). }
  destruct (forward_request_run Hvalid url headers)
    as [s' [Hrun [_ [Hn [Hr _]]]]].
  exists s'. split; [exact Hrun|]. split.
  - intros Hnil. rewrite Hnil in Hr. simpl in Hr.
    destruct (outcome w 0); discriminate.
  - pose proof (@retry_loop_requests w Hvalid url headers
                  (fun e => exists p k,
                       e = Request (Some p) url headers
                       /\ In p (pool_read w k) /\ http_prefixed p)) as Hreq.
    unfold forward_request in Hrun.
    replace s' with (snd (retry_loop url headers (seq 0 max_retries) w h0))
      by now rewrite Hrun.
    apply Hreq; [|constructor].
    intros s. exists (chosen w s), (S (S (reads s))).
    pose proof (chosen_In Hvalid s (Hall (reads s))) as Hin.
    split; [|split; [exact Hin|]].
    + unfold route. destruct (pool_read w (reads s)) eqn:E; [|reflexivity].
      now destruct (Hall (reads s)).
    + pose proof (history_prefixed Hvalid (S (S (reads s)))) as HP.
      rewrite Forall_forall in HP. now apply HP.
Qed.

(* ------------------------------------------------------------------ *)
(** ** More on [working_https_proxy.py]: URLs and the start-up pool *)
(* ------------------------------------------------------------------ *)

Lemma starts_with_h (s : string) :
  Py.startswith s "http://" || Py.startswith s "https://" = true ->
  Py.startswith s "/" = false.
Proof.
  unfold Py.startswith. intros H. apply orb_true_iff in H.
  destruct H as [H|H]; apply prefix_split in H; destruct H as [rest ->];
    reflexivity.
Qed.

(** X10: whatever the path, [normalize_url] returns a URL that begins
    with "http://" or "https://", and normalising that URL again leaves
    it as it is. *)
Theorem normalize_url_idempotent (path : string) :
  Py.startswith (normalize_url path) "http://"
  || Py.startswith (normalize_url path) "https://" = true
  /\ normalize_url (normalize_url path) = normalize_url path.
Proof.
  assert (Hstart : Py.startswith (normalize_url path) "http://"
                   || Py.startswith (normalize_url path) "https://" = true).
  { unfold normalize_url.
    set (target := if Py.startswith path "/" then Py.drop1 path else path).
    destruct (Py.startswith target "http://"
              || Py.startswith target "https://") eqn:Hs; cbn [negb].
    - exact Hs.
    - match goal with
      | |- context [existsb ?f https_sites] => destruct (existsb f https_sites)
      end.
      + apply orb_true_iff. right. exact (prefix_append "https://" target).
      + apply orb_true_iff. left. exact (prefix_append "http://" target). }
  split; [exact Hstart|].
  generalize dependent (normalize_url path). intros url Hstart.
  unfold normalize_url.
  rewrite (starts_with_h url Hstart), Hstart. reflexivity.
Qed.

Lemma parse_lines_length (lines : list string) :
  List.length (parse_lines lines []) <= List.length lines.
Proof.
  rewrite parse_lines_spec. simpl. rewrite length_map.
  etransitivity; [apply filter_length_le|]. now rewrite length_map.
Qed.

Lemma fetch_proxies_short (w : refresh_world) (s : rstate) :
  exists (proxies : list string) (s' : rstate),
    fetch_proxies w s = (Ok proxies, s')
    /\ List.length proxies <= 10
    /\ PROXY_POOL s' = PROXY_POOL s.
Proof.
  unfold fetch_proxies, try_except, bind, listing_open, read_decode,
    remit, ret.
  simpl.
  destruct (urlopen (listing w)) as [r|e]; simpl;
    [destruct (listing_text w) as [raw|e]; simpl|];
    do 2 eexists; (split; [reflexivity|]); (split; [|reflexivity]);
    try (simpl; lia).
  etransitivity; [apply parse_lines_length|].
  apply (firstn_le_length 10).
Qed.

(** X11: [fetch_proxies] never raises and returns at most ten proxies,
    taken from the first ten lines of the listing; it returns none when
    the listing cannot be fetched or read. *)
Theorem fetch_proxies_at_most_ten (w : refresh_world) (s : rstate) :
  exists (proxies : list string) (s' : rstate),
    fetch_proxies w s = (Ok proxies, s')
    /\ List.length proxies <= 10
    /\ (forall raw, listing_text w = Ok raw ->
                    (exists r, urlopen (listing w) = Ok r) ->
                    proxies
                    = parse_lines
                        (firstn 10 (Py.split Py.newline (Py.strip raw))) [])
    /\ ((forall r, urlopen (listing w) <> Ok r)
        \/ (forall raw, listing_text w <> Ok raw) -> proxies = [])
    /\ PROXY_POOL s' = PROXY_POOL s.
Proof.
  unfold fetch_proxies, try_except, bind, listing_open, read_decode,
    remit, ret.
  simpl.
  destruct (urlopen (listing w)) as [r|e]; simpl.
  - destruct (listing_text w) as [raw|e]; simpl.
    + do 2 eexists. split; [reflexivity|]. repeat split.
      * etransitivity; [apply parse_lines_length|].
        apply (firstn_le_length 10).
      * intros raw' H _. now injection H as <-.
      * intros [H|H]; [now destruct (H r) | now destruct (H raw)].
    + do 2 eexists. split; [reflexivity|]. repeat split.
      * simpl. lia.
      * intros raw H. discriminate.
  - do 2 eexists. split; [reflexivity|]. repeat split.
    + simpl. lia.
    + intros raw _ [r H]. discriminate.
Qed.

(** X12: [initialize_proxies] never raises; started on the empty pool
    it leaves a pool of at most ten "http://" proxies, and when the
    listing yields no proxy it leaves the pool as it was. *)
Theorem initialize_proxies_contract (w : refresh_world) (s : rstate) :
  exists (proxies : list string) (s1 s' : rstate),
    fetch_proxies w s = (Ok proxies, s1)
    /\ initialize_proxies w s = (Ok tt, s')
    /\ PROXY_POOL s' = (if nonempty proxies then proxies else PROXY_POOL s)
    /\ size (PROXY_POOL s') <= Nat.max (size (PROXY_POOL s)) 10.
Proof.
  destruct (fetch_proxies_short w s) as [proxies [s1 [Hrun [Hlen Hp]]]].
  exists proxies, s1.
  unfold initialize_proxies, bind. rewrite Hrun.
  destruct proxies as [|p ps]; simpl.
  - unfold ret. eexists. split; [reflexivity|]. split; [reflexivity|].
    rewrite Hp. split; [reflexivity | unfold size; lia].
  - unfold set_PROXY_POOL. eexists. split; [reflexivity|].
    split; [reflexivity|]. simpl. split; [reflexivity|].
    unfold size. simpl in *. lia.
Qed.

(* ------------------------------------------------------------------ *)
(** ** The entry point of [app.py] *)
(* ------------------------------------------------------------------ *)

Lemma gclient_app (t u : list xevent) :
  gclient (t ++ u) = (gclient t ++ gclient u)%list.
Proof. apply flat_map_app. Qed.

Lemma gclient_Base (t : list event) : gclient (map Base t) = client_view t.
Proof.
  induction t as [|e t IH]; [reflexivity|]. simpl.
  destruct (to_client e); simpl; now rewrite IH.
Qed.

Lemma outbound_app (t u : list xevent) :
  outbound (t ++ u) = (outbound t ++ outbound u)%list.
Proof. apply filter_app. Qed.

Lemma outbound_Base (t : list event) :
  outbound (map Base t) = map Base (requests t).
Proof.
  induction t as [|e t IH]; [reflexivity|]. simpl.
  destruct (is_request e); simpl; now rewrite IH.
Qed.



(** A choice among a non-empty list, made from an entry point. *)
Lemma liftH_random_choice (l : list string) (w : handler_world) (g : gstate) :
  l <> [] ->
  liftH (random_choice l) w g
  = (Ok (nth (draw w (gdraws g) mod List.length l) l EmptyString),
     mkGState (greads g) (S (gdraws g)) (gcalls g) (gtrace g)).
Proof.
  intros Hne. unfold liftH, random_choice.
  destruct l as [|x xs]; [congruence|].
  cbn [reads draws calls trace map]. now rewrite app_nil_r.
Qed.




(** X13: [do_GET] of [app.py] answers 400 "Invalid URL", without a
    pause, a draw or an outbound call, when [validate_url] gives [None]
    ([urlparse] raised) or the empty string. *)
Theorem do_GET_rejects_invalid_url
        (urlparse_scheme : string -> result string) (path : string)
        (w : handler_world) :
  validate_url urlparse_scheme (Py.drop1 path) = None
  \/ validate_url urlparse_scheme (Py.drop1 path) = Some "" ->
  exists g' : gstate,
    do_GET urlparse_scheme path w g0 = (Ok tt, g')
    /\ gclient (gtrace g') = [SendError 400 "Invalid URL"]
    /\ outbound (gtrace g') = []
    /\ gsleeps (gtrace g') = []
    /\ gcalls g' = 0 /\ gdraws g' = 0 /\ greads g' = 0.
Proof.
  unfold do_GET, validate_url_logged, validate_url, try_except, bind.
  destruct (urlparse_scheme (Py.drop1 path)) as [scheme|e].
  - intros [H|H].
    + destruct (negb (Py.truthy scheme)); discriminate.
    + unfold ret. rewrite H. simpl.
      eexists. split; [reflexivity|]. repeat split.
  - intros _. simpl. eexists. split; [reflexivity|]. repeat split.
Qed.


(* ------------------------------------------------------------------ *)
(** ** The entry points of [working_https_proxy.py] *)
(* ------------------------------------------------------------------ *)

Lemma working_send_headers_run (hs : list (string * string)) :
  forall (w : handler_world) (g : gstate),
    Working.send_headers hs w g
    = (Ok tt,
       mkGState (greads g) (gdraws g) (gcalls g)
         (gtrace g
          ++ map Base
               (map (fun kv => SendHeader (fst kv) (snd kv))
                    (filter (fun kv => Working.forwarded (fst kv)) hs)))).
Proof.
  induction hs as [|[key value] rest IH]; intros w g.
  - simpl. unfold ret. rewrite app_nil_r. now destruct g.
  - cbn [Working.send_headers filter fst snd]. unfold bind at 1.
    destruct (Working.forwarded key).
    + unfold gemit at 1. cbv beta iota. rewrite IH.
      cbn [greads gdraws gcalls gtrace map]. now rewrite <- app_assoc.
    + unfold ret at 1. cbv beta iota. now rewrite IH.
Qed.

(** The relay of [make_request]: whole when the body is read, the
    head alone when the read raises. *)
Lemma working_relay_run (r : response) (w : handler_world) (g : gstate) :
  Working.relay r w g
  = match read_fault w (pred (gcalls g)) with
    | None =>
        (Ok tt, mkGState (greads g) (gdraws g) (gcalls g)
                         (gtrace g ++ map Base (filtered r)))
    | Some e =>
        (Raise e, mkGState (greads g) (gdraws g) (gcalls g)
                           (gtrace g ++ map Base (filtered_head r)))
    end.
Proof.
  unfold Working.relay, bind, gemit, Working.read_body. simpl.
  rewrite working_send_headers_run. simpl.
  destruct (read_fault w (pred (gcalls g)));
    unfold filtered, filtered_head; simpl; rewrite map_app; simpl;
    repeat (rewrite <- app_assoc; simpl); reflexivity.
Qed.

Lemma filtered_split (r : response) :
  filtered r = (filtered_head r ++ [WfileWrite (body r)])%list.
Proof.
  unfold filtered, filtered_head. simpl. now rewrite <- app_assoc.
Qed.

Lemma gclient_filtered_head (r : response) :
  gclient (map Base (filtered_head r)) = filtered_head r.
Proof.
  rewrite gclient_Base. unfold filtered_head, client_view. simpl. f_equal.
  rewrite filter_app. simpl. f_equal.
  induction (filter _ (getheaders r)) as [|kv hs IH]; simpl;
    [reflexivity | now rewrite IH].
Qed.

Lemma gclient_filtered (r : response) :
  gclient (map Base (filtered r)) = filtered r.
Proof.
  rewrite filtered_split, map_app, gclient_app, gclient_filtered_head.
  reflexivity.
Qed.

Lemma outbound_filtered_head (r : response) :
  outbound (map Base (filtered_head r)) = [].
Proof.
  rewrite outbound_Base. unfold filtered_head, requests. simpl.
  rewrite filter_app. simpl.
  induction (filter _ (getheaders r)) as [|kv hs IH]; simpl;
    [reflexivity | exact IH].
Qed.

Lemma outbound_filtered (r : response) :
  outbound (map Base (filtered r)) = [].
Proof.
  rewrite filtered_split, map_app, outbound_app, outbound_filtered_head.
  reflexivity.
Qed.



Lemma gclient_relayed_before_failure (w : handler_world) (k : nat) :
  gclient (map Base (relayed_before_failure w k)) = relayed_before_failure w k.
Proof.
  unfold relayed_before_failure.
  destruct (urlopen (upstream w k)); [|reflexivity].
  destruct (read_fault w k); [apply gclient_filtered_head | reflexivity].
Qed.

Lemma outbound_relayed_before_failure (w : handler_world) (k : nat) :
  outbound (map Base (relayed_before_failure w k)) = [].
Proof.
  unfold relayed_before_failure.
  destruct (urlopen (upstream w k)); [|reflexivity].
  destruct (read_fault w k); [apply outbound_filtered_head | reflexivity].
Qed.





Lemma gclient_relayed (r : response) (m : xlog) :
  gclient (map Base (filtered r) ++ [XLog INFO m]) = filtered r.
Proof.
  rewrite gclient_app, gclient_filtered.
  change (gclient [XLog INFO m]) with (@nil event). apply app_nil_r.
Qed.

Lemma outbound_relayed (r : response) (m : xlog) :
  outbound (map Base (filtered r) ++ [XLog INFO m]) = [].
Proof. now rewrite outbound_app, outbound_filtered. Qed.

(** The outbound calls of [make_request]: through the proxy when one
    is picked, then directly when that attempt failed; directly at once
    when no proxy is picked. *)
Lemma make_request_calls (w : handler_world) (pool : list string)
      (inbound : list (string * string)) (url method : string)
      (data : option string) (g : gstate) :
  outbound (make_request_events w pool inbound url method data g)
  = match proxy_pick w (S (gdraws g)) pool with
    | Some p =>
        Call method (Some p) url (upstream_headers w (gdraws g) inbound) data
        :: match outcome w (gcalls g) with
           | Ok _ => []
           | Raise _ =>
               [Call method None url (upstream_headers w (gdraws g) inbound)
                     data]
           end
    | None =>
        [Call method None url (upstream_headers w (gdraws g) inbound) data]
    end.
Proof.
  unfold make_request_events.
  destruct (proxy_pick w (S (gdraws g)) pool) as [p|].
  - change (outbound (?c :: ?t)) with (c :: outbound t). f_equal.
    destruct (outcome w (gcalls g)) as [r|e];
      [apply outbound_relayed|].
    rewrite outbound_app, outbound_relayed_before_failure. cbn [app].
    change (outbound (?c :: ?t)) with (c :: outbound t). f_equal.
    destruct (outcome w (S (gcalls g))) as [r|e'];
      [apply outbound_relayed|].
    now rewrite outbound_app, outbound_relayed_before_failure.
  - change (outbound (?c :: ?t)) with (c :: outbound t). f_equal.
    destruct (outcome w (gcalls g)) as [r|e];
      [apply outbound_relayed|].
    now rewrite outbound_app, outbound_relayed_before_failure.
Qed.

(** What the client gets from [make_request]: the reply of the first
    attempt that succeeded, or 502, after the head of every reply whose
    body read failed. *)
Lemma make_request_client (w : handler_world) (pool : list string)
      (inbound : list (string * string)) (url method : string)
      (data : option string) (g : gstate) :
  gclient (make_request_events w pool inbound url method data g)
  = match proxy_pick w (S (gdraws g)) pool, outcome w (gcalls g) with
    | _, Ok r => filtered r
    | Some _, Raise _ =>
        (relayed_before_failure w (gcalls g)
         ++ match outcome w (S (gcalls g)) with
            | Ok r => filtered r
            | Raise _ =>
                relayed_before_failure w (S (gcalls g))
                ++ [SendError 502 "All connection attempts failed"]
            end)%list
    | None, Raise _ =>
        (relayed_before_failure w (gcalls g)
         ++ [SendError 502 "All connection attempts failed"])%list
    end.
Proof.
  unfold make_request_events.
  destruct (proxy_pick w (S (gdraws g)) pool) as [p|].
  - change (gclient (?c :: ?t)) with (gclient t).
    destruct (outcome w (gcalls g)) as [r|e];
      [apply gclient_relayed|].
    rewrite gclient_app, gclient_relayed_before_failure. f_equal.
    change (gclient (?c :: ?t)) with (gclient t).
    destruct (outcome w (S (gcalls g))) as [r|e'];
      [apply gclient_relayed|].
    now rewrite gclient_app, gclient_relayed_before_failure.
  - change (gclient (?c :: ?t)) with (gclient t).
    destruct (outcome w (gcalls g)) as [r|e];
      [apply gclient_relayed|].
    now rewrite gclient_app, gclient_relayed_before_failure.
Qed.





Lemma same_gstate (n d c c' : nat) (t t' : list xevent) :
  c = c' -> t = t' ->
  (@Ok unit tt, mkGState n d c t) = (Ok tt, mkGState n d c' t').
Proof. now intros -> ->. Qed.

(** Closes a leaf of [make_request_run]: the call count and the trace
    of the computed state are those announced. *)
Ltac finish_make_request :=
  cbn [gdraws gcalls gtrace greads fst snd negb app];
  apply same_gstate;
  [ simpl; lia
  | repeat (rewrite <- app_assoc; cbn [app]); reflexivity ].

Section MakeRequest.
Variable w : handler_world.
Variable pool : list string.
(** [working_https_proxy.py] assigns its pool once, before it serves. *)
Hypothesis Hconst : forall k, pool_read w k = pool.
Variables (inbound : list (string * string)) (url method : string)
          (data : option string).

Lemma liftH_get_proxy (g : gstate) :
  exists n : nat,
    liftH Working.get_proxy w g
    = (Ok match pool with
          | [] => None
          | _ :: _ =>
              Some (nth (draw w (gdraws g) mod List.length pool) pool
                        EmptyString)
          end,
       mkGState n (match pool with
                   | [] => gdraws g
                   | _ :: _ => S (gdraws g)
                   end) (gcalls g) (gtrace g)).
Proof.
  unfold liftH, Working.get_proxy, bind, read_PROXY_POOL.
  cbn [reads draws calls trace local_proxy].
  rewrite Hconst.
  destruct pool as [|q qs] eqn:E.
  - simpl. rewrite app_nil_r. eexists. reflexivity.
  - cbn [nonempty reads draws calls trace local_proxy].
    rewrite ?Hconst, ?E. unfold random_choice, ret. simpl.
    rewrite app_nil_r. eexists. reflexivity.
Qed.

(** One guarded attempt of [make_request]. *)
Lemma guarded_attempt_run (headers : list (string * string))
      (via : option string) (won : list note) (lost : exn -> list note)
      (g : gstate) :
  try_except
    (resp <- Working.open_via method via url headers data ;;
     Working.relay resp ;;
     ret (true, won))
    (fun e => ret (false, lost e)) w g
  = match outcome w (gcalls g) with
    | Ok r =>
        (Ok (true, won),
         mkGState (greads g) (gdraws g) (S (gcalls g))
                  (gtrace g ++ Call method via url headers data
                            :: map Base (filtered r)))
    | Raise e =>
        (Ok (false, lost e),
         mkGState (greads g) (gdraws g) (S (gcalls g))
                  (gtrace g ++ Call method via url headers data
                            :: map Base (relayed_before_failure w (gcalls g))))
    end.
Proof.
  unfold try_except, bind, Working.open_via, ret, outcome,
    relayed_before_failure.
  destruct (urlopen (upstream w (gcalls g))) as [r|e]; [|reflexivity].
  rewrite working_relay_run. cbn [greads gdraws gcalls gtrace pred].
  destruct (read_fault w (gcalls g)); now rewrite <- app_assoc.
Qed.

(** [make_request] returns, and what it adds to the trace is decided by
    the proxy drawn and by the outcome of at most two attempts. *)
Lemma make_request_run (g : gstate) :
  exists n d : nat,
    Working.make_request inbound url method data w g
    = (Ok tt,
       mkGState n d
         (gcalls g
          + List.length
              (outbound (make_request_events w pool inbound url method data g)))
         (gtrace g ++ make_request_events w pool inbound url method data g)).
Proof.
  rewrite make_request_calls.
  unfold Working.make_request, make_request_events.
  unfold bind at 1. rewrite liftH_random_choice by discriminate.
  fold (upstream_headers w (gdraws g) inbound).
  set (headers := upstream_headers w (gdraws g) inbound).
  unfold bind at 1.
  match goal with
  | |- context [liftH Working.get_proxy w ?st] =>
      destruct (liftH_get_proxy st) as [n Hget]
  end.
  rewrite Hget. clear Hget. cbn [gdraws gcalls gtrace greads].
  unfold proxy_pick.
  destruct pool as [|q qs] eqn:E.
  - unfold bind at 1. unfold ret at 1. cbv beta iota.
    cbn [fst snd negb]. unfold bind at 1.
    rewrite guarded_attempt_run. cbn [gdraws gcalls gtrace greads].
    destruct (outcome w (gcalls g)) as [r|e]; do 2 eexists;
      unfold bind, gemit, ret; finish_make_request.
  - set (p := nth _ (q :: qs) EmptyString).
    destruct (Py.truthy p) eqn:Ht.
    + unfold bind at 1. rewrite guarded_attempt_run.
      cbn [gdraws gcalls gtrace greads].
      destruct (outcome w (gcalls g)) as [r|e].
      * do 2 eexists. unfold bind, gemit, ret. finish_make_request.
      * cbn [fst snd negb]. unfold bind at 1.
        rewrite guarded_attempt_run. cbn [gdraws gcalls gtrace greads].
        destruct (outcome w (S (gcalls g))) as [r|e'];
          do 2 eexists; unfold bind, gemit, ret; finish_make_request.
    + unfold bind at 1. unfold ret at 1. cbv beta iota.
      cbn [fst snd negb]. unfold bind at 1.
      rewrite guarded_attempt_run. cbn [gdraws gcalls gtrace greads].
      destruct (outcome w (gcalls g)) as [r|e]; do 2 eexists;
        unfold bind, gemit, ret; finish_make_request.
Qed.
End MakeRequest.

Lemma forwarded_not_skipped (key : string) :
  Working.forwarded key = true -> ~ In (Py.lower key) Working.skip_headers.
Proof.
  unfold Working.forwarded. intros H Hin.
  apply negb_true_iff in H.
  assert (Ht : existsb (String.eqb (Py.lower key)) Working.skip_headers = true).
  { apply existsb_exists. exists (Py.lower key).
    split; [exact Hin | apply String.eqb_refl]. }
  congruence.
Qed.

Lemma copy_headers_appends (inbound : list (string * string))
      (names : list string) :
  forall headers : list (string * string),
    Working.copy_headers inbound names headers
    = (headers
       ++ flat_map (fun name =>
                      match Working.inbound_get inbound name with
                      | Some value => [(name, value)]
                      | None => []
                      end) names)%list.
Proof.
  induction names as [|name rest IH]; intros headers; simpl.
  - now rewrite app_nil_r.
  - destruct (Working.inbound_get inbound name) as [v|].
    + now rewrite IH, <- app_assoc.
    + apply IH.
Qed.



(** X17: [make_request] never relays a Connection, Transfer-Encoding or
    Content-Encoding header to the client, however the upstream spells
    the name; every header it does relay is a header of the upstream
    response. *)
Theorem make_request_drops_hop_headers
        (w : handler_world) (pool : list string)
        (inbound : list (string * string)) (url method : string)
        (data : option string) (g : gstate) :
  (forall k, pool_read w k = pool) ->
  exists (g' : gstate) (new : list xevent),
    Working.make_request inbound url method data w g = (Ok tt, g')
    /\ gtrace g' = (gtrace g ++ new)%list
    /\ forall key value,
        In (SendHeader key value) (gclient new) ->
        ~ In (Py.lower key) Working.skip_headers
        /\ exists k r, upstream w k = Reply r
                       /\ In (key, value) (getheaders r).
Proof.
  intros Hconst.
  destruct (@make_request_run w pool Hconst inbound url method data g)
    as [n [d Hrun]].
  eexists. exists (make_request_events w pool inbound url method data g).
  split; [exact Hrun|]. split; [reflexivity|].
  intros key value. rewrite make_request_client.
  set (goal := ~ In (Py.lower key) Working.skip_headers
               /\ exists k r, upstream w k = Reply r
                              /\ In (key, value) (getheaders r)).
  assert (Hhead : forall k r,
             urlopen (upstream w k) = Ok r ->
             In (SendHeader key value) (filtered_head r) -> goal).
  { intros k r Hk Hin. unfold filtered_head in Hin.
    destruct Hin as [Hin|Hin]; [discriminate|].
    apply in_app_or in Hin.
    destruct Hin as [Hin|[Hin|[]]]; try discriminate.
    apply in_map_iff in Hin. destruct Hin as [[key' value'] [Heq Hin]].
    simpl in Heq. injection Heq as -> ->.
    apply filter_In in Hin. destruct Hin as [Hin Hfw].
    split; [now apply forwarded_not_skipped|].
    exists k, r. split; [apply (urlopen_ok_2xx _ Hk) | exact Hin]. }
  assert (Hfiltered : forall k r,
             outcome w k = Ok r ->
             In (SendHeader key value) (filtered r) -> goal).
  { intros k r Hk Hin. apply outcome_ok in Hk. destruct Hk as [Hk _].
    rewrite filtered_split in Hin. apply in_app_or in Hin.
    destruct Hin as [Hin|[Hin|[]]]; [|discriminate].
    now apply (Hhead k r). }
  assert (Hbefore : forall k,
             In (SendHeader key value) (relayed_before_failure w k) -> goal).
  { intros k. unfold relayed_before_failure.
    destruct (urlopen (upstream w k)) as [r|e] eqn:E; [|intros []].
    destruct (read_fault w k); [|intros []].
    now apply (Hhead k r). }
  assert (H502 : In (SendHeader key value)
                    [SendError 502 "All connection attempts failed"] -> goal).
  { intros [H|[]]. discriminate. }
  destruct (proxy_pick w (S (gdraws g)) pool) as [p|];
    destruct (outcome w (gcalls g)) as [r|e] eqn:E0;
    try (now apply (Hfiltered (gcalls g) r)).
  - intros Hin. apply in_app_or in Hin.
    destruct Hin as [Hin|Hin]; [now apply (Hbefore (gcalls g))|].
    destruct (outcome w (S (gcalls g))) as [r|e'] eqn:E1;
      [now apply (Hfiltered (S (gcalls g)) r)|].
    apply in_app_or in Hin.
    destruct Hin as [Hin|Hin]; [now apply (Hbefore (S (gcalls g))) | auto].
  - intros Hin. apply in_app_or in Hin.
    destruct Hin as [Hin|Hin]; [now apply (Hbefore (gcalls g)) | auto].
Qed.

(** X18: every outbound call of [make_request], and there is at least
    one, carries exactly these headers, in this order: the five the
    function builds itself, with the user agent drawn from
    [USER_AGENTS], then Content-Type and Content-Length, each when the
    inbound request has it and with the value of its first inbound
    occurrence.  No other inbound header travels upstream. *)
Theorem make_request_sends_own_headers
        (w : handler_world) (pool : list string)
        (inbound : list (string * string)) (url method : string)
        (data : option string) (g : gstate) :
  (forall k, pool_read w k = pool) ->
  exists (g' : gstate) (new : list xevent),
    let user_agent :=
      nth (draw w (gdraws g) mod List.length Working.USER_AGENTS)
          Working.USER_AGENTS EmptyString in
    let copied :=
      flat_map (fun name =>
                  match Working.inbound_get inbound name with
                  | Some value => [(name, value)]
                  | None => []
                  end) ["Content-Type"; "Content-Length"] in
    Working.make_request inbound url method data w g = (Ok tt, g')
    /\ gtrace g' = (gtrace g ++ new)%list
    /\ In user_agent Working.USER_AGENTS
    /\ outbound new <> []
    /\ forall x, In x (outbound new) ->
        exists via,
          x = Call method via url
                   (Working.base_headers user_agent ++ copied)%list data.
Proof.
  intros Hconst.
  destruct (@make_request_run w pool Hconst inbound url method data g)
    as [n [d Hrun]].
  eexists. exists (make_request_events w pool inbound url method data g).
  cbv zeta.
  split; [exact Hrun|]. split; [reflexivity|].
  split; [apply nth_mod_In; discriminate|].
  rewrite make_request_calls. unfold upstream_headers.
  rewrite copy_headers_appends.
  split.
  - destruct (proxy_pick w (S (gdraws g)) pool); discriminate.
  - intros x Hx.
    destruct (proxy_pick w (S (gdraws g)) pool) as [p|].
    + destruct Hx as [<-|Hx]; [eauto|].
      destruct (outcome w (gcalls g)); [destruct Hx|].
      destruct Hx as [<-|[]]. eauto.
    + destruct Hx as [<-|[]]. eauto.
Qed.


(** X20: [do_POST] answers 500 with the text of the exception, without
    a pause or an outbound call, when the Content-Length header is no
    integer or when reading the body fails. *)
Theorem do_POST_rejects_unreadable_body
        (int_of_str : string -> result Z) (rfile_read : Z -> result string)
        (inbound : list (string * string)) (path : string)
        (w : handler_world) (e : exn) :
  Working.content_length int_of_str inbound = Raise e
  \/ (exists n, Working.content_length int_of_str inbound = Ok n
                /\ posted rfile_read n = Raise e) ->
  exists g' : gstate,
    Working.do_POST int_of_str rfile_read inbound path w g0 = (Ok tt, g')
    /\ gclient (gtrace g') = [SendError 500 (str_exn e)]
    /\ outbound (gtrace g') = []
    /\ gsleeps (gtrace g') = []
    /\ gcalls g' = 0.
Proof.
  unfold Working.do_POST, try_except, posted.
  unfold bind at 1. unfold Working.lift_result at 1.
  intros [H|[n [H Hp]]]; rewrite H.
  - unfold bind, gemit. simpl.
    eexists. split; [reflexivity|]. repeat split.
  - unfold bind at 1.
    destruct (0 <? n)%Z; [|discriminate].
    unfold bind at 1. unfold Working.lift_result at 1.
    destruct (rfile_read n) as [body|e']; [discriminate|].
    injection Hp as ->.
    unfold bind, gemit. simpl.
    eexists. split; [reflexivity|]. repeat split.
Qed.


(* ------------------------------------------------------------------ *)
(** ** The ERROR records of a request *)
(* ------------------------------------------------------------------ *)







(* ------------------------------------------------------------------ *)
(** ** The further theorems at the sample worlds *)
(* ------------------------------------------------------------------ *)

Lemma w_third_time_lucky_valid : valid_history w_third_time_lucky.
Proof. apply constant_history_valid. exact sample_pool_reachable. Qed.

Lemma reachable_pool_at_most_100_sample :
  reachable sample_pool /\ size sample_pool <= 100.
Proof.
  split; [exact sample_pool_reachable|].
  exact (reachable_pool_at_most_100 sample_pool_reachable).
Defined.

Lemma update_proxy_pool_installs_validated_sample :
  passes w_second_probe_ok 1 = true
  /\ exists s' : rstate,
      update_proxy_pool w_second_probe_ok r0 = (Ok tt, s')
      /\ PROXY_POOL s' = validated w_second_probe_ok 0 sample_pool 100
      /\ PROXY_POOL s' <> [].
Proof.
  split; [reflexivity|].
  refine (@update_proxy_pool_installs_validated
            w_second_probe_ok r0
            (snd (fetch_proxies_from_api w_second_probe_ok r0))
            sample_pool 1 _ _ _).
  - reflexivity.
  - simpl. lia.
  - reflexivity.
Defined.

Lemma fetched_proxy_shape_sample :
  In "http://1.2.3.4:80" sample_pool
  /\ exists line : string,
      "http://1.2.3.4:80" = "http://" ++ line
      /\ Py.truthy line = true
      /\ Py.contains ":" line = true
      /\ Py.strip line = line
      /\ has_char Py.newline line = false.
Proof.
  split; [simpl; auto|].
  refine (@fetched_proxy_shape
            w_all_probes_fail r0
            (snd (fetch_proxies_from_api w_all_probes_fail r0))
            sample_pool "http://1.2.3.4:80" _ _).
  - reflexivity.
  - simpl. auto.
Defined.

Lemma w_hop_headers_valid : valid_history w_hop_headers.
Proof. apply constant_history_valid. exact sample_pool_reachable. Qed.



Lemma forward_request_direct_on_empty_pool_sample :
  exists s' : hstate,
    forward_request "http://example.com/x" sample_headers w_404_then_200 h0
    = (Ok tt, s')
    /\ requests (trace s')
       = repeat (Request None "http://example.com/x" sample_headers) (calls s').
Proof.
  refine (@forward_request_direct_on_empty_pool
            w_404_then_200 "http://example.com/x" sample_headers _).
  intros k. reflexivity.
Defined.

Lemma forward_request_never_direct_on_populated_pool_sample :
  valid_history w_third_time_lucky
  /\ exists s' : hstate,
      forward_request "http://httpbin.org/ip" sample_headers
                      w_third_time_lucky h0 = (Ok tt, s')
      /\ requests (trace s') <> []
      /\ Forall (fun e => exists p k,
                     e = Request (Some p) "http://httpbin.org/ip" sample_headers
                     /\ In p (pool_read w_third_time_lucky k)
                     /\ http_prefixed p)
                (requests (trace s')).
Proof.
  split; [exact w_third_time_lucky_valid|].
  refine (@forward_request_never_direct_on_populated_pool
            w_third_time_lucky "http://httpbin.org/ip" sample_headers
            w_third_time_lucky_valid _).
  discriminate.
Defined.

Lemma do_GET_rejects_invalid_url_sample :
  validate_url Urlsplit.scheme "http://[::1/x" = None
  /\ exists g' : gstate,
      do_GET Urlsplit.scheme "/http://[::1/x" w_all_down g0
      = (Ok tt, g')
      /\ gclient (gtrace g') = [SendError 400 "Invalid URL"]
      /\ outbound (gtrace g') = []
      /\ gsleeps (gtrace g') = []
      /\ gcalls g' = 0 /\ gdraws g' = 0 /\ greads g' = 0.
Proof.
  split; [reflexivity|].
  refine (@do_GET_rejects_invalid_url
            Urlsplit.scheme "/http://[::1/x" w_all_down _).
  left. reflexivity.
Defined.




Lemma make_request_drops_hop_headers_sample :
  In (SendHeader "Content-Type" "text/plain")
     (gclient (gtrace (snd (Working.make_request
                              [] "https://github.com/foo" "GET" None
                              w_hop_headers g0))))
  /\ ~ In (Py.lower "Content-Type") Working.skip_headers
  /\ exists k r, upstream w_hop_headers k = Reply r
                 /\ In ("Content-Type", "text/plain") (getheaders r).
Proof.
  split; [simpl; auto|].
  destruct (@make_request_drops_hop_headers
              w_hop_headers sample_pool [] "https://github.com/foo"
              "GET" None g0 (fun k => eq_refl))
    as [g' [new [Hrun [Ht Hall]]]].
  apply Hall.
  cbn [gtrace g0 app] in Ht. rewrite <- Ht.
  replace g' with (snd (Working.make_request
                          [] "https://github.com/foo" "GET" None
                          w_hop_headers g0))
    by (now rewrite Hrun).
  simpl. auto.
Defined.

Lemma make_request_sends_own_headers_sample :
  exists (g' : gstate) (new : list xevent),
    Working.make_request [("content-type", "text/plain"); ("Cookie", "a=b")]
                         "https://github.com/foo" "POST" (Some "hello")
                         w_all_down g0 = (Ok tt, g')
    /\ gtrace g' = (gtrace g0 ++ new)%list
    /\ In (nth 0 Working.USER_AGENTS EmptyString) Working.USER_AGENTS
    /\ outbound new <> []
    /\ forall x, In x (outbound new) ->
        exists via,
          x = Call "POST" via "https://github.com/foo"
                   (Working.base_headers (nth 0 Working.USER_AGENTS EmptyString)
                    ++ [("Content-Type", "text/plain")])%list
                   (Some "hello").
Proof.
  refine (@make_request_sends_own_headers
            w_all_down sample_pool
            [("content-type", "text/plain"); ("Cookie", "a=b")]
            "https://github.com/foo" "POST" (Some "hello") g0 _).
  intros k. reflexivity.
Defined.


Example make_request_sample_headers :
  upstream_headers w_all_down 0
                   [("content-type", "text/plain"); ("Cookie", "a=b")]
  = (Working.base_headers
       "Mozilla/5.0 (Windows NT 10.0; Win64; x64) AppleWebKit/537.36 (KHTML, like Gecko) Chrome/120.0.0.0 Safari/537.36"
     ++ [("Content-Type", "text/plain")])%list.
Proof. reflexivity. Qed.

Example working_do_GET_sample :
  gclient (gtrace (snd (Working.do_GET [] "/github.com/foo"
                                       w_third_time_lucky g0)))
  = [SendError 502 "All connection attempts failed"].
Proof. reflexivity. Qed.

(** Of the four headers of the reply only Content-Type is relayed. *)
Example working_do_GET_hop_headers :
  gclient (gtrace (snd (Working.do_GET [] "/github.com/foo"
                                       w_hop_headers g0)))
  = [SendResponse 200; SendHeader "Content-Type" "text/plain"; EndHeaders;
     WfileWrite "hello"].
Proof. reflexivity. Qed.

(** The head of the proxy's reply, whose body read broke off, is
    followed by the 502 of the failed direct call. *)
Example make_request_body_cut_short :
  gclient (gtrace (snd (Working.make_request
                          [] "https://github.com/foo" "GET" None
                          w_proxy_body_cut_short g0)))
  = [SendResponse 200; SendHeader "Content-Type" "text/plain"; EndHeaders;
     SendError 502 "All connection attempts failed"].
Proof. reflexivity. Qed.

Example decimal_int_samples :
  decimal_int "5" = Ok 5%Z
  /\ decimal_int "-5" = Ok (-5)%Z
  /\ decimal_int " +1_000 " = Ok 1000%Z
  /\ decimal_int "12a"
     = Raise (OtherException "invalid literal for int() with base 10: '12a'")
  /\ decimal_int ""
     = Raise (OtherException "invalid literal for int() with base 10: ''").
Proof. repeat split. Qed.

Example urlsplit_scheme_samples :
  Urlsplit.scheme "HTTP://Example.com/a" = Ok "http"
  /\ Urlsplit.scheme " example.com:80/a" = Ok "example.com"
  /\ Urlsplit.scheme "example.com/a[b" = Ok EmptyString
  /\ Urlsplit.scheme "http://[::1/x" = Raise (OtherException "Invalid IPv6 URL")
  /\ Urlsplit.scheme "//::1]/x" = Raise (OtherException "Invalid IPv6 URL")
  /\ Urlsplit.scheme "http://[::1]/x" = Ok "http".
Proof. repeat split. Qed.

Lemma do_POST_rejects_unreadable_body_sample :
  Working.content_length decimal_int [("Content-Length", "12a")]
  = Raise (OtherException "invalid literal for int() with base 10: '12a'")
  /\ exists g' : gstate,
      Working.do_POST decimal_int sample_rfile [("Content-Length", "12a")]
                      "/github.com/foo" w_all_down g0 = (Ok tt, g')
      /\ gclient (gtrace g')
         = [SendError 500 "invalid literal for int() with base 10: '12a'"]
      /\ outbound (gtrace g') = []
      /\ gsleeps (gtrace g') = []
      /\ gcalls g' = 0.
Proof.
  split; [reflexivity|].
  refine (@do_POST_rejects_unreadable_body
            decimal_int sample_rfile [("Content-Length", "12a")]
            "/github.com/foo" w_all_down
            (OtherException "invalid literal for int() with base 10: '12a'") _).
  left. reflexivity.
Defined.


Example do_POST_sample :
  gclient (gtrace (snd (Working.do_POST decimal_int sample_rfile
                                        [("content-length", "5")]
                                        "/httpbin.org/post" w_hop_headers g0)))
  = [SendResponse 200; SendHeader "Content-Type" "text/plain"; EndHeaders;
     WfileWrite "hello"]
  /\ outbound (gtrace (snd (Working.do_POST decimal_int sample_rfile
                                            [("content-length", "5")]
                                            "/httpbin.org/post"
                                            w_hop_headers g0)))
     = [Call "POST" (Some "http://5.6.7.8:3128") "http://httpbin.org/post"
             (Working.base_headers (nth 0 Working.USER_AGENTS EmptyString)
              ++ [("Content-Length", "5")])%list
             (Some "hello")].
Proof. split; reflexivity. Qed.

